(** * ElfomoFi SDK: the quoting engine and the snapshot-refresh protocol

    A shallow embedding of
      - [elfomofi_sdk/state/models.py]   (the dataclasses),
      - [elfomofi_sdk/state/orderbook.py] ([build_direction_book]),
      - [elfomofi_sdk/quoting/engine.py] ([get_amount_out], [_calc_quote]),
      - [elfomofi_sdk/fetcher/onchain.py] ([RawPairData], [FetchResult]),
      - [elfomofi_sdk/client.py]          ([quote], [_on_new_block], accessors),
    followed by the properties of the interpolation and of the refresh
    protocol.

    Python [int] is unbounded, so amounts and block numbers are [Z];
    [//] is floor division, which is [Z.div]; a Python exception is a value
    of [PyExc] carried by [pyresult]. *)

From stdpp Require Import base option list gmap strings.
From Stdlib Require Import ZArith Lia.

Local Open Scope Z_scope.

(* ================================================================== *)
(** ** Python results: a value or a raised exception                    *)
(* ================================================================== *)

(** The exception classes that the modelled code can meet.  All of them
    derive from [Exception] except [CancelledError], which derives from
    [BaseException] only and so passes through [except Exception]. *)
Inductive PyExc : Type :=
| ZeroDivisionError
| IndexError
| ValueError
| ConnectionError
| TimeoutError
| CancelledError.

Definition is_Exception (e : PyExc) : bool :=
  match e with
  | CancelledError => false
  | _ => true
  end.

Inductive pyresult (A : Type) : Type :=
| Return (a : A)
| Raise (e : PyExc).
Arguments Return {A} a.
Arguments Raise {A} e.

#[global] Instance pyresult_ret : MRet pyresult := fun A a => Return a.
#[global] Instance pyresult_bind : MBind pyresult :=
  fun A B f m => match m with Return a => f a | Raise e => Raise e end.
#[global] Instance pyresult_fmap : FMap pyresult :=
  fun A B f m => match m with Return a => Return (f a) | Raise e => Raise e end.

(** [l[i]] for a non-negative index. *)
Definition index {A : Type} (l : list A) (i : nat) : pyresult A :=
  match l !! i with
  | Some x => Return x
  | None => Raise IndexError
  end.

(** [l[-1]]. *)
Definition index_last {A : Type} (l : list A) : pyresult A :=
  match last l with
  | Some x => Return x
  | None => Raise IndexError
  end.

(** [a // b]. *)
Definition floordiv (a b : Z) : pyresult Z :=
  if b =? 0 then Raise ZeroDivisionError else Return (a / b).

(** [not l] for a list: true exactly on the empty list. *)
Definition py_not {A : Type} (l : list A) : bool :=
  match l with
  | [] => true
  | _ :: _ => false
  end.

(* ================================================================== *)
(** ** state/models.py                                                  *)
(* ================================================================== *)

Module TokenPair.
Record t : Type := mk { base_token : string; quote_token : string }.
Definition key (p : t) : string * string := (base_token p, quote_token p).
End TokenPair.

Module ProbePoint.
Record t : Type := mk { amount_in : Z; amount_out : Z }.
End ProbePoint.

Module DirectionBook.
Record t : Type := mk {
  from_token : string;
  to_token : string;
  probes : list ProbePoint.t;
  from_balance : Z;
  to_balance : Z
}.
End DirectionBook.

Module QuoteResult.
Record t : Type := mk {
  from_token : string;
  to_token : string;
  amount_in : Z;
  amount_out : Z;
  block_number : Z
}.
End QuoteResult.

(** A curve literal, written as the list of its [(amountIn, amountOut)]. *)
Definition curve (l : list (Z * Z)) : list ProbePoint.t :=
  map (fun p => ProbePoint.mk (fst p) (snd p)) l.

(* ================================================================== *)
(** ** state/orderbook.py                                               *)
(* ================================================================== *)

Definition build_direction_book (from_token to_token : string)
    (probes : list ProbePoint.t) (from_balance to_balance : Z) : DirectionBook.t :=
  DirectionBook.mk from_token to_token probes from_balance to_balance.

(* ================================================================== *)
(** ** quoting/engine.py                                                *)
(* ================================================================== *)

(** The body of [for i in range(len(probes) - 1)], run over the indices
    that are left; [Return None] is the loop falling through. *)
Fixpoint for_segments (probes : list ProbePoint.t) (amount_in : Z)
    (rng : list nat) : pyresult (option Z) :=
  match rng with
  | [] => Return None
  | i :: rng' =>
      upper ← index probes (i + 1)%nat;
      if amount_in <=? ProbePoint.amount_in upper then
        lower ← index probes i;
        let delta_in := ProbePoint.amount_in upper - ProbePoint.amount_in lower in
        let delta_out := ProbePoint.amount_out upper - ProbePoint.amount_out lower in
        if delta_in =? 0 then Return (Some (ProbePoint.amount_out lower))
        else
          let excess := amount_in - ProbePoint.amount_in lower in
          q ← floordiv (excess * delta_out) delta_in;
          Return (Some (ProbePoint.amount_out lower + q))
      else for_segments probes amount_in rng'
  end.

(** [range(len(probes) - 1)]; for the empty list [range(-1)] is empty, as
    is [seq 0 (0 - 1)]. *)
Definition segment_range (probes : list ProbePoint.t) : list nat :=
  seq 0 (length probes - 1).

Definition _calc_quote (probes : list ProbePoint.t) (amount_in : Z) : pyresult Z :=
  first ← index probes 0%nat;
  if amount_in <=? ProbePoint.amount_in first then
    if ProbePoint.amount_in first =? 0 then Return 0
    else floordiv (amount_in * ProbePoint.amount_out first) (ProbePoint.amount_in first)
  else
    r ← for_segments probes amount_in (segment_range probes);
    match r with
    | Some out => Return out
    | None =>
        last ← index_last probes;
        Return (ProbePoint.amount_out last)
    end.

Definition _empty_result (direction : DirectionBook.t)
    (amount_in amount_out block_number : Z) : QuoteResult.t :=
  QuoteResult.mk (DirectionBook.from_token direction)
                 (DirectionBook.to_token direction)
                 amount_in amount_out block_number.

Definition get_amount_out (direction : DirectionBook.t)
    (amount_in block_number : Z) : pyresult QuoteResult.t :=
  let probes := DirectionBook.probes direction in
  if (amount_in <=? 0) || py_not probes then
    Return (_empty_result direction amount_in 0 block_number)
  else
    amount_out ← _calc_quote probes amount_in;
    Return (QuoteResult.mk (DirectionBook.from_token direction)
                           (DirectionBook.to_token direction)
                           amount_in amount_out block_number).

(** The [amount_out] that a call produces, when it returns. *)
Definition quoted_out (r : pyresult QuoteResult.t) : pyresult Z :=
  QuoteResult.amount_out <$> r.

Definition book_of (from_token to_token : string) (l : list (Z * Z)) : DirectionBook.t :=
  build_direction_book from_token to_token (curve l) 0 0.

(* ------------------------------------------------------------------ *)
(** *** The same code, recording the [return] statement that is taken   *)
(* ------------------------------------------------------------------ *)

(** One constructor per [return] of [get_amount_out] and [_calc_quote]. *)
Inductive branch : Type :=
| EarlyReturn            (* get_amount_out: amount_in <= 0 or not probes *)
| OriginGuard            (* _calc_quote: first.amount_in == 0, return 0 *)
| OriginSegment          (* _calc_quote: return out, segment 0 *)
| SegmentGuard (i : nat) (* _calc_quote: delta_in == 0, return lower.amount_out *)
| Segment (i : nat)      (* _calc_quote: return out, loop iteration i *)
| Cap.                   (* _calc_quote: return last.amount_out *)

Fixpoint for_segments_br (probes : list ProbePoint.t) (amount_in : Z)
    (rng : list nat) : pyresult (option (branch * Z)) :=
  match rng with
  | [] => Return None
  | i :: rng' =>
      upper ← index probes (i + 1)%nat;
      if amount_in <=? ProbePoint.amount_in upper then
        lower ← index probes i;
        let delta_in := ProbePoint.amount_in upper - ProbePoint.amount_in lower in
        let delta_out := ProbePoint.amount_out upper - ProbePoint.amount_out lower in
        if delta_in =? 0 then Return (Some (SegmentGuard i, ProbePoint.amount_out lower))
        else
          let excess := amount_in - ProbePoint.amount_in lower in
          q ← floordiv (excess * delta_out) delta_in;
          Return (Some (Segment i, ProbePoint.amount_out lower + q))
      else for_segments_br probes amount_in rng'
  end.

Definition _calc_quote_br (probes : list ProbePoint.t) (amount_in : Z)
    : pyresult (branch * Z) :=
  first ← index probes 0%nat;
  if amount_in <=? ProbePoint.amount_in first then
    if ProbePoint.amount_in first =? 0 then Return (OriginGuard, 0)
    else
      q ← floordiv (amount_in * ProbePoint.amount_out first) (ProbePoint.amount_in first);
      Return (OriginSegment, q)
  else
    r ← for_segments_br probes amount_in (segment_range probes);
    match r with
    | Some out => Return out
    | None =>
        last ← index_last probes;
        Return (Cap, ProbePoint.amount_out last)
    end.

Definition get_amount_out_br (direction : DirectionBook.t)
    (amount_in block_number : Z) : pyresult (branch * QuoteResult.t) :=
  let probes := DirectionBook.probes direction in
  if (amount_in <=? 0) || py_not probes then
    Return (EarlyReturn, _empty_result direction amount_in 0 block_number)
  else
    '(b, amount_out) ← _calc_quote_br probes amount_in;
    Return (b, QuoteResult.mk (DirectionBook.from_token direction)
                              (DirectionBook.to_token direction)
                              amount_in amount_out block_number).

(* ------------------------------------------------------------------ *)
(** *** The scan, by recursion on the curve                             *)
(* ------------------------------------------------------------------ *)

(** What the loop computes when it stands at [lower], the point of index
    [k], with the points [rest] after it: used in proofs only. *)
Fixpoint scan (k : nat) (lower : ProbePoint.t) (rest : list ProbePoint.t)
    (amount_in : Z) : option (branch * Z) :=
  match rest with
  | [] => None
  | upper :: rest' =>
      if amount_in <=? ProbePoint.amount_in upper then
        let delta_in := ProbePoint.amount_in upper - ProbePoint.amount_in lower in
        let delta_out := ProbePoint.amount_out upper - ProbePoint.amount_out lower in
        if delta_in =? 0 then Some (SegmentGuard k, ProbePoint.amount_out lower)
        else Some (Segment k, ProbePoint.amount_out lower
                              + ((amount_in - ProbePoint.amount_in lower) * delta_out) / delta_in)
      else scan (S k) upper rest' amount_in
  end.

Definition last_out (first : ProbePoint.t) (rest : list ProbePoint.t) : Z :=
  ProbePoint.amount_out (default first (last rest)).

(** The amount that the scan from [lower] ends on, the cap included:
    used in proofs only. *)
Definition scan_out (k : nat) (lower : ProbePoint.t) (rest : list ProbePoint.t)
    (a : Z) : Z :=
  match scan k lower rest a with
  | Some r => r.2
  | None => last_out lower rest
  end.

(** What [_calc_quote] computes on the curve [first :: rest], in closed
    form: used in proofs only. *)
Definition calc_quote_closed (first : ProbePoint.t) (rest : list ProbePoint.t)
    (a : Z) : branch * Z :=
  if a <=? ProbePoint.amount_in first then
    if ProbePoint.amount_in first =? 0 then (OriginGuard, 0)
    else (OriginSegment, (a * ProbePoint.amount_out first) / ProbePoint.amount_in first)
  else
    match scan 0 first rest a with
    | Some r => r
    | None => (Cap, last_out first rest)
    end.

(** Strictly increasing [amount_in], non-decreasing [amount_out],
    starting from the point [p]. *)
Fixpoint increasing_from (p : ProbePoint.t) (rest : list ProbePoint.t) : Prop :=
  match rest with
  | [] => True
  | q :: rest' =>
      ProbePoint.amount_in p < ProbePoint.amount_in q
      /\ ProbePoint.amount_out p <= ProbePoint.amount_out q
      /\ increasing_from q rest'
  end.

(** The curve invariant of the data model: [amount_in] strictly
    increasing, [amount_out] non-negative and non-decreasing. *)
Definition well_formed_curve (probes : list ProbePoint.t) : Prop :=
  match probes with
  | [] => True
  | first :: rest => 0 <= ProbePoint.amount_out first /\ increasing_from first rest
  end.

(** The same invariant, read off the indices of the list. *)
Definition strictly_increasing_in (probes : list ProbePoint.t) : Prop :=
  forall (i j : nat) (p q : ProbePoint.t),
    (i < j)%nat -> probes !! i = Some p -> probes !! j = Some q ->
    ProbePoint.amount_in p < ProbePoint.amount_in q.

Definition nondecreasing_out (probes : list ProbePoint.t) : Prop :=
  forall (i j : nat) (p q : ProbePoint.t),
    (i < j)%nat -> probes !! i = Some p -> probes !! j = Some q ->
    ProbePoint.amount_out p <= ProbePoint.amount_out q.

Definition nonnegative_out (probes : list ProbePoint.t) : Prop :=
  forall (i : nat) (p : ProbePoint.t),
    probes !! i = Some p -> 0 <= ProbePoint.amount_out p.

Definition nonnegative_in (probes : list ProbePoint.t) : Prop :=
  forall (i : nat) (p : ProbePoint.t),
    probes !! i = Some p -> 0 <= ProbePoint.amount_in p.

(* ================================================================== *)
(** ** fetcher/onchain.py: the typed result of a fetch                  *)
(* ================================================================== *)

Module RawPairData.
Record t : Type := mk {
  pair : TokenPair.t;
  ask_probes : list ProbePoint.t;
  bid_probes : list ProbePoint.t;
  balance_base : Z;
  balance_quote : Z
}.
End RawPairData.

Module FetchResult.
Record t : Type := mk {
  pairs : list RawPairData.t;
  block_number : Z;
  block_timestamp : Z
}.
End FetchResult.

(** What [await self._fetcher.fetch_all_orderbooks()] evaluates to: the
    decoded result, or the exception that the remote call raised. *)
Definition fetch_outcome : Type := pyresult FetchResult.t.

(* ================================================================== *)
(** ** client.py                                                        *)
(* ================================================================== *)

Module ElfomoFiClient.

(** The mutable attributes of the client; [_initialized] is the
    [asyncio.Event], which is only ever set. *)
Record t : Type := mk {
  _directions : gmap (string * string) DirectionBook.t;
  _pair_keys : list (string * string);
  _current_block : Z;
  _block_timestamp : Z;
  _initialized : bool
}.

(** [CHAINS] of chains.py has the single entry 8453 (Base). *)
Definition CHAINS : gmap Z string :=
  {[ 8453 := "0xc1b13606FC7227f2554067aFb3fb12De75C02d81"%string ]}.

(** The state that [__init__] leaves. *)
Definition fresh : t := mk ∅ [] 0 0 false.

Definition __init__ (chain_id : Z) : pyresult t :=
  match CHAINS !! chain_id with
  | None => Raise ValueError
  | Some _ => Return fresh
  end.

Definition current_block (self : t) : Z := _current_block self.
Definition block_timestamp (self : t) : Z := _block_timestamp self.
Definition pairs (self : t) : list (string * string) := _pair_keys self.

Section Quoting.

(** [w3.to_checksum_address] of web3.py: the checksummed form of an
    address, or an exception on a string that is not an address. *)
Variable to_checksum_address : string -> pyresult string.

Definition _get_direction (self : t) (from_token to_token : string)
    : pyresult (option DirectionBook.t) :=
  f ← to_checksum_address from_token;
  t ← to_checksum_address to_token;
  Return (_directions self !! (f, t)).

Definition quote (self : t) (from_token to_token : string) (amount_in : Z)
    : pyresult (option QuoteResult.t) :=
  direction ← _get_direction self from_token to_token;
  match direction with
  | None => Return None
  | Some d => Some <$> get_amount_out d amount_in (_current_block self)
  end.

End Quoting.

(* ------------------------------------------------------------------ *)
(** *** Coroutines                                                      *)
(* ------------------------------------------------------------------ *)

(** One attribute store on [self] (or [self._initialized.set()]). *)
Inductive store : Type :=
| Store_directions (v : gmap (string * string) DirectionBook.t)
| Store_pair_keys (v : list (string * string))
| Store_current_block (v : Z)
| Store_block_timestamp (v : Z)
| Set_initialized.

Definition exec_store (w : store) (self : t) : t :=
  match w with
  | Store_directions v =>
      mk v (_pair_keys self) (_current_block self) (_block_timestamp self) (_initialized self)
  | Store_pair_keys v =>
      mk (_directions self) v (_current_block self) (_block_timestamp self) (_initialized self)
  | Store_current_block v =>
      mk (_directions self) (_pair_keys self) v (_block_timestamp self) (_initialized self)
  | Store_block_timestamp v =>
      mk (_directions self) (_pair_keys self) (_current_block self) v (_initialized self)
  | Set_initialized =>
      mk (_directions self) (_pair_keys self) (_current_block self) (_block_timestamp self) true
  end.

(** An [async def] of the client, as the tree of what it does next: it
    finishes, loads from [self], stores to [self], or suspends at the
    [await] of the fetch and is resumed with the outcome. *)
Inductive coro (A : Type) : Type :=
| Finish (r : pyresult A)
| Load (k : t -> coro A)
| Store (w : store) (k : coro A)
| Await (k : fetch_outcome -> coro A).
Arguments Finish {A} r.
Arguments Load {A} k.
Arguments Store {A} w k.
Arguments Await {A} k.

(** The [for raw in result.pairs] loop body, on the pair of locals
    [(new_dirs, new_pairs)]. *)
Definition build_pair
    (acc : gmap (string * string) DirectionBook.t * list (string * string))
    (raw : RawPairData.t)
    : gmap (string * string) DirectionBook.t * list (string * string) :=
  let base := TokenPair.base_token (RawPairData.pair raw) in
  let quote := TokenPair.quote_token (RawPairData.pair raw) in
  let new_pairs := acc.2 ++ [(base, quote)] in
  let asks := build_direction_book quote base (RawPairData.ask_probes raw)
                (RawPairData.balance_quote raw) (RawPairData.balance_base raw) in
  let bids := build_direction_book base quote (RawPairData.bid_probes raw)
                (RawPairData.balance_base raw) (RawPairData.balance_quote raw) in
  let new_dirs :=
    <[(DirectionBook.from_token asks, DirectionBook.to_token asks) := asks]> acc.1 in
  let new_dirs :=
    <[(DirectionBook.from_token bids, DirectionBook.to_token bids) := bids]> new_dirs in
  (new_dirs, new_pairs).

Definition build_new_state (result : FetchResult.t)
    : gmap (string * string) DirectionBook.t * list (string * string) :=
  fold_left build_pair (FetchResult.pairs result) (∅, []).

(** [_on_new_block] from the point where the fetch has completed; the
    calls to [logger] touch nothing of the client and are left out. *)
Definition after_fetch (block_number : Z) (outcome : fetch_outcome) : coro unit :=
  match outcome with
  | Raise e =>
      if is_Exception e then Finish (Return tt)   (* except Exception: log, return *)
      else Finish (Raise e)
  | Return result =>
      let '(new_dirs, new_pairs) := build_new_state result in
      Load (fun self =>
        if FetchResult.block_number result <=? _current_block self then
          Finish (Return tt)
        else
          Store (Store_directions new_dirs)
          (Store (Store_pair_keys new_pairs)
          (Store (Store_current_block (FetchResult.block_number result))
          (Store (Store_block_timestamp (FetchResult.block_timestamp result))
          (Store Set_initialized
          (Finish (Return tt)))))))
  end.

Definition _on_new_block (block_number : Z) : coro unit :=
  Await (after_fetch block_number).

(** [BlockListener._run_callback] of rpc/listener.py: the task body that
    wraps the callback in [try ... except Exception]. *)
Fixpoint _run_callback (on_block : coro unit) : coro unit :=
  match on_block with
  | Finish (Raise e) => if is_Exception e then Finish (Return tt) else Finish (Raise e)
  | Finish (Return v) => Finish (Return v)
  | Load k => Load (fun self => _run_callback (k self))
  | Store w k => Store w (_run_callback k)
  | Await k => Await (fun o => _run_callback (k o))
  end.

(* ------------------------------------------------------------------ *)
(** *** The event loop                                                  *)
(* ------------------------------------------------------------------ *)

(** Where a coroutine stands when it gives control back. *)
Inductive paused (A : Type) : Type :=
| Finished (r : pyresult A)
| Suspended (k : fetch_outcome -> coro A).
Arguments Finished {A} r.
Arguments Suspended {A} k.

(** Runs a coroutine on [self] until it finishes or reaches an [await]:
    asyncio never switches tasks anywhere else. *)
Fixpoint run {A : Type} (c : coro A) (self : t) : t * paused A :=
  match c with
  | Finish r => (self, Finished r)
  | Load k => run (k self) self
  | Store w k => run k (exec_store w self)
  | Await k => (self, Suspended k)
  end.

(** The attribute stores of that stretch one at a time: every state
    that [self] goes through, the final one last. *)
Fixpoint run_states {A : Type} (c : coro A) (self : t) : list t :=
  match c with
  | Finish r => []
  | Load k => run_states (k self) self
  | Store w k => exec_store w self :: run_states k (exec_store w self)
  | Await k => []
  end.

(** The client and the tasks that are suspended in a fetch. *)
Record loop : Type := mkloop {
  client : t;
  tasks : list (fetch_outcome -> coro unit)
}.

Inductive event : Type :=
| NewBlock (block_number : Z)
    (* the listener creates a task for _run_callback(on_block, block_number) *)
| FetchCompletes (task : nat) (outcome : fetch_outcome)
    (* the fetch awaited by a suspended task completes, in any order *)
| ReaderRuns.
    (* a reader on the loop calls quote() or an accessor *)

Definition settle (self_p : t * paused unit) (others : list (fetch_outcome -> coro unit)) : loop :=
  match self_p with
  | (self, Finished _) => mkloop self others
  | (self, Suspended k) => mkloop self (others ++ [k])
  end.

Definition step (st : loop) (ev : event) : loop :=
  match ev with
  | NewBlock block_number =>
      settle (run (_run_callback (_on_new_block block_number)) (client st)) (tasks st)
  | FetchCompletes i outcome =>
      match tasks st !! i with
      | None => st
      | Some k => settle (run (k outcome) (client st)) (delete i (tasks st))
      end
  | ReaderRuns => st
  end.

Definition run_events (st : loop) (evs : list event) : loop :=
  fold_left step evs st.

Definition started : loop := mkloop fresh [].

(** The client as each reader of a run finds it, in order. *)
Fixpoint observations (st : loop) (evs : list event) : list t :=
  match evs with
  | [] => []
  | ReaderRuns :: evs' => client st :: observations st evs'
  | ev :: evs' => observations (step st ev) evs'
  end.

(** The snapshot that a fetch result stands for, once published. *)
Definition snapshot_of (result : FetchResult.t) : t :=
  mk (build_new_state result).1 (build_new_state result).2
     (FetchResult.block_number result) (FetchResult.block_timestamp result) true.

(** The results that the events of a run delivered. *)
Fixpoint delivered (evs : list event) : list FetchResult.t :=
  match evs with
  | [] => []
  | FetchCompletes _ (Return result) :: evs' => result :: delivered evs'
  | _ :: evs' => delivered evs'
  end.

(** One refresh from start to end, the fetch answering [outcome]. *)
Definition refresh (self : t) (block_number : Z) (outcome : fetch_outcome)
    : t * paused unit :=
  match run (_on_new_block block_number) self with
  | (self', Suspended k) => run (k outcome) self'
  | done => done
  end.

(** A client that is as constructed, or is the snapshot of one of
    [results] in every field. *)
Definition whole_snapshot (results : list FetchResult.t) (self : t) : Prop :=
  self = fresh \/ exists result, result ∈ results /\ self = snapshot_of result.

(** The tasks that the loop holds are refreshes waiting for their
    fetch: used in proofs only. *)
Definition is_refresh_task (k : fetch_outcome -> coro unit) : Prop :=
  exists n, forall outcome, k outcome = _run_callback (after_fetch n outcome).

End ElfomoFiClient.

(* ------------------------------------------------------------------ *)
(** *** Sample data for the examples                                    *)
(* ------------------------------------------------------------------ *)

(** One pool, WETH/USDC, fetched at the given block. *)
Definition sample_result (block_number block_timestamp : Z) : FetchResult.t :=
  FetchResult.mk
    [RawPairData.mk (TokenPair.mk "WETH" "USDC")
       (curve [(100, 200); (300, 500)]) (curve [(10, 5); (20, 9)]) 1000 2000]
    block_number block_timestamp.

(** Two refreshes race, for blocks 10 and 11, and block 11's fetch
    completes first; a reader runs after each completion. *)
Definition race_late_10 : list ElfomoFiClient.event :=
  [ElfomoFiClient.NewBlock 10; ElfomoFiClient.NewBlock 11;
   ElfomoFiClient.FetchCompletes 1 (Return (sample_result 11 1700000012));
   ElfomoFiClient.ReaderRuns;
   ElfomoFiClient.FetchCompletes 0 (Return (sample_result 10 1700000000));
   ElfomoFiClient.ReaderRuns].

(** The same race, block 10's fetch completing first. *)
Definition race_late_11 : list ElfomoFiClient.event :=
  [ElfomoFiClient.NewBlock 10; ElfomoFiClient.NewBlock 11;
   ElfomoFiClient.FetchCompletes 0 (Return (sample_result 10 1700000000));
   ElfomoFiClient.ReaderRuns;
   ElfomoFiClient.FetchCompletes 0 (Return (sample_result 11 1700000012));
   ElfomoFiClient.ReaderRuns].

(** The same pool one block later, its ask curve moved. *)
Definition sample_moved (block_number block_timestamp : Z) : FetchResult.t :=
  FetchResult.mk
    [RawPairData.mk (TokenPair.mk "WETH" "USDC")
       (curve [(100, 150); (300, 400)]) (curve [(10, 5); (20, 9)]) 1000 2000]
    block_number block_timestamp.

(** The client as a reader on another OS thread can find it while a
    refresh publishes [result]: as it was, or after any of the stores,
    since the interpreter may switch threads between two stores. *)
Definition states_during_publish (self : ElfomoFiClient.t) (n : Z)
    (result : FetchResult.t) : list ElfomoFiClient.t :=
  self :: ElfomoFiClient.run_states (ElfomoFiClient.after_fetch n (Return result)) self.

(** [quote] as the two attribute loads it makes: [self._directions] in
    [_get_direction], then [self._current_block], each on the client as
    it is at that load.  On the event loop both loads find the same
    state; a reader on another OS thread can be preempted between them. *)
Definition quote_loads (to_checksum_address : string -> pyresult string)
    (at_directions at_current_block : ElfomoFiClient.t)
    (from_token to_token : string) (amount_in : Z) : pyresult (option QuoteResult.t) :=
  f ← to_checksum_address from_token;
  t ← to_checksum_address to_token;
  match ElfomoFiClient._directions at_directions !! (f, t) with
  | None => Return None
  | Some d =>
      fmap (M:=pyresult) Some
        (get_amount_out d amount_in (ElfomoFiClient._current_block at_current_block))
  end.

(** A stand-in for [to_checksum_address] in the examples: it rejects the
    empty string and returns any other string as it is. *)
Definition sample_checksum (s : string) : pyresult string :=
  if String.eqb s "" then Raise ValueError else Return s.

(* ================================================================== *)
(** ** fetcher/onchain.py: decoding the reply of the helper contract    *)
(* ================================================================== *)

(** The [PairOrderbook] struct of the ABI reply, [entry[0]] to
    [entry[5]]; a cumulative level is the pair [(p[0], p[1])]. *)
Module PairOrderbook.
Record t : Type := mk {
  base : string;
  quote : string;
  askCumulativeLevels : list (Z * Z);
  bidCumulativeLevels : list (Z * Z);
  balanceBase : Z;
  balanceQuote : Z
}.
End PairOrderbook.

(** [[ProbePoint(amount_in=p[0], amount_out=p[1]) for p in levels if p[0] > 0]],
    the comprehension that [_decode_pair] runs on each side. *)
Definition decode_levels (levels : list (Z * Z)) : list ProbePoint.t :=
  map (fun p => ProbePoint.mk p.1 p.2) (filter (fun p : Z * Z => 0 < p.1) levels).

Definition _decode_pair (entry : PairOrderbook.t) : RawPairData.t :=
  let base_token := PairOrderbook.base entry in
  let quote_token := PairOrderbook.quote entry in
  let ask_probes := decode_levels (PairOrderbook.askCumulativeLevels entry) in
  let bid_probes := decode_levels (PairOrderbook.bidCumulativeLevels entry) in
  let balance_base := PairOrderbook.balanceBase entry in
  let balance_quote := PairOrderbook.balanceQuote entry in
  RawPairData.mk (TokenPair.mk base_token quote_token)
    ask_probes bid_probes balance_base balance_quote.

(** [fetch_all_orderbooks], given what
    [await self._helper.functions.getAllOrderbooks().call()] evaluates to:
    the triple of the reply, or the exception of the remote call. *)
Definition fetch_all_orderbooks (reply : pyresult (list PairOrderbook.t * Z * Z))
    : pyresult FetchResult.t :=
  '(books, block_number, block_timestamp) ← reply;
  Return (FetchResult.mk (map _decode_pair books) block_number block_timestamp).

(** [R] between each element of a list and all the later ones: used in
    proofs only. *)
Fixpoint pairwise {A : Type} (R : A -> A -> Prop) (l : list A) : Prop :=
  match l with
  | [] => True
  | x :: l' => Forall (R x) l' /\ pairwise R l'
  end.

(** Raw levels whose entries of positive [p[0]] are strictly increasing
    in [p[0]]; the entries with [p[0] <= 0] (failed probes) may stand
    anywhere. *)
Definition increasing_where_positive (levels : list (Z * Z)) : Prop :=
  forall (i j : nat) (p q : Z * Z),
    (i < j)%nat -> levels !! i = Some p -> levels !! j = Some q ->
    0 < p.1 -> 0 < q.1 -> p.1 < q.1.

(** The same for [p[1]], weakly, and the sign of [p[1]]. *)
Definition nondecreasing_where_positive (levels : list (Z * Z)) : Prop :=
  forall (i j : nat) (p q : Z * Z),
    (i < j)%nat -> levels !! i = Some p -> levels !! j = Some q ->
    0 < p.1 -> 0 < q.1 -> p.2 <= q.2.

Definition nonnegative_where_positive (levels : list (Z * Z)) : Prop :=
  forall (i : nat) (p : Z * Z), levels !! i = Some p -> 0 < p.1 -> 0 <= p.2.

(* ================================================================== *)
(** ** client.py: what the refresh builds, and refreshes in sequence     *)
(* ================================================================== *)

(** The two books that the loop of [_on_new_block] builds for one pair. *)
Definition asks_of (raw : RawPairData.t) : DirectionBook.t :=
  build_direction_book
    (TokenPair.quote_token (RawPairData.pair raw))
    (TokenPair.base_token (RawPairData.pair raw))
    (RawPairData.ask_probes raw)
    (RawPairData.balance_quote raw) (RawPairData.balance_base raw).

Definition bids_of (raw : RawPairData.t) : DirectionBook.t :=
  build_direction_book
    (TokenPair.base_token (RawPairData.pair raw))
    (TokenPair.quote_token (RawPairData.pair raw))
    (RawPairData.bid_probes raw)
    (RawPairData.balance_base raw) (RawPairData.balance_quote raw).

(** The keys that the loop stores under, in the order of the stores. *)
Definition direction_keys (raws : list RawPairData.t) : list (string * string) :=
  flat_map (fun raw =>
              [(TokenPair.quote_token (RawPairData.pair raw),
                TokenPair.base_token (RawPairData.pair raw));
               (TokenPair.base_token (RawPairData.pair raw),
                TokenPair.quote_token (RawPairData.pair raw))]) raws.

(** Refreshes that run one after the other, each to its end, the fetch
    of each returning the next of [results]. *)
Definition refresh_all (self : ElfomoFiClient.t) (results : list FetchResult.t)
    : ElfomoFiClient.t :=
  fold_left
    (fun s result =>
       (ElfomoFiClient.refresh s (FetchResult.block_number result) (Return result)).1)
    results self.

(** Runs a coroutine to its end, the awaited fetches evaluating to
    [outcomes] in turn; [None] when the outcomes run out first. *)
Fixpoint run_with {A : Type} (c : ElfomoFiClient.coro A) (outcomes : list fetch_outcome)
    (self : ElfomoFiClient.t) : ElfomoFiClient.t * option (pyresult A) :=
  match c with
  | ElfomoFiClient.Finish r => (self, Some r)
  | ElfomoFiClient.Load k => run_with (k self) outcomes self
  | ElfomoFiClient.Store w k => run_with k outcomes (ElfomoFiClient.exec_store w self)
  | ElfomoFiClient.Await k =>
      match outcomes with
      | [] => (self, None)
      | outcome :: outcomes' => run_with (k outcome) outcomes' self
      end
  end.

(** The results that the events of a run hand to a task that was
    waiting for them, the loop being in state [st] at the start. *)
Fixpoint accepted (st : ElfomoFiClient.loop) (evs : list ElfomoFiClient.event)
    : list FetchResult.t :=
  match evs with
  | [] => []
  | ev :: evs' =>
      match ev with
      | ElfomoFiClient.FetchCompletes i (Return result) =>
          match ElfomoFiClient.tasks st !! i with
          | Some _ => [result]
          | None => []
          end
      | _ => []
      end ++ accepted (ElfomoFiClient.step st ev) evs'
  end.

(** A reply of the helper: WETH/USDC, with a failed probe (zero entry)
    among the ask levels. *)
Definition sample_entry : PairOrderbook.t :=
  PairOrderbook.mk "WETH" "USDC"
    [(100, 200); (0, 0); (300, 500)] [(10, 5); (20, 9)] 1000 2000.

(** Two pools with four distinct directions. *)
Definition sample_two_pools (block_number block_timestamp : Z) : FetchResult.t :=
  FetchResult.mk
    [RawPairData.mk (TokenPair.mk "WETH" "USDC")
       (curve [(100, 200); (300, 500)]) (curve [(10, 5); (20, 9)]) 1000 2000;
     RawPairData.mk (TokenPair.mk "WETH" "DAI")
       (curve [(50, 70)]) (curve [(7, 3)]) 30 40]
    block_number block_timestamp.

(* ================================================================== *)
(** * Properties of the interpolation engine                            *)
(* ================================================================== *)

Section EngineFacts.

Implicit Types (probes rest pre : list ProbePoint.t) (first lower : ProbePoint.t).
Implicit Types (a b : Z) (k : nat).

(** Forgetting the recorded branch gives back the plain functions. *)
Lemma for_segments_erase probes a rng :
  for_segments probes a rng
  = fmap (M:=pyresult) (fmap (M:=option) snd) (for_segments_br probes a rng).
Proof.
  induction rng as [|i rng IH]; simpl; [reflexivity|].
  destruct (index probes (i + 1)) as [upper|e]; simpl; [|reflexivity].
  destruct (a <=? ProbePoint.amount_in upper); [|exact IH].
  destruct (index probes i) as [lower|e]; simpl; [|reflexivity].
  destruct (_ =? 0); [reflexivity|].
  destruct (floordiv _ _); reflexivity.
Qed.

Lemma calc_quote_erase probes a :
  _calc_quote probes a = snd <$> _calc_quote_br probes a.
Proof.
  unfold _calc_quote, _calc_quote_br.
  destruct (index probes 0) as [first|e]; simpl; [|reflexivity].
  destruct (a <=? ProbePoint.amount_in first).
  - destruct (_ =? 0); [reflexivity|]. destruct (floordiv _ _); reflexivity.
  - rewrite for_segments_erase.
    destruct (for_segments_br probes a (segment_range probes)) as [[[br v]|]|e];
      simpl; try reflexivity.
    destruct (index_last probes); reflexivity.
Qed.

Lemma get_amount_out_erase (d : DirectionBook.t) a b :
  get_amount_out d a b = snd <$> get_amount_out_br d a b.
Proof.
  unfold get_amount_out, get_amount_out_br.
  destruct ((a <=? 0) || py_not (DirectionBook.probes d)); [reflexivity|].
  rewrite calc_quote_erase.
  destruct (_calc_quote_br (DirectionBook.probes d) a) as [[br v]|e]; reflexivity.
Qed.

Lemma index_middle pre lower rest :
  index (pre ++ lower :: rest) (length pre) = Return lower.
Proof.
  unfold index. rewrite list_lookup_middle; reflexivity.
Qed.

Lemma index_last_cons first rest :
  index_last (first :: rest) = Return (default first (last rest)).
Proof.
  unfold index_last. rewrite last_cons. destruct (last rest); reflexivity.
Qed.

Lemma floordiv_nonzero a b : b <> 0 -> floordiv a b = Return (a / b).
Proof.
  intros Hb. unfold floordiv. destruct (Z.eqb_spec b 0); [contradiction|reflexivity].
Qed.

(** The loop, started at index [length pre], is the scan from the
    point at that index: no index is out of range, no division is by
    zero. *)
Lemma for_segments_br_scan rest : forall pre lower a,
  for_segments_br (pre ++ lower :: rest) a (seq (length pre) (length rest))
  = Return (scan (length pre) lower rest a).
Proof.
  induction rest as [|upper rest IH]; intros pre lower a; [reflexivity|].
  cbn [length seq for_segments_br scan].
  assert (Hup : index (pre ++ lower :: upper :: rest) (length pre + 1) = Return upper).
  { replace (pre ++ lower :: upper :: rest) with ((pre ++ [lower]) ++ upper :: rest)
      by (rewrite <- app_assoc; reflexivity).
    replace (length pre + 1)%nat with (length (pre ++ [lower]))
      by (rewrite length_app; reflexivity).
    apply index_middle. }
  rewrite Hup, index_middle. simpl.
  destruct (a <=? ProbePoint.amount_in upper).
  - destruct (Z.eqb_spec (ProbePoint.amount_in upper - ProbePoint.amount_in lower) 0)
      as [Hz|Hz]; [reflexivity|].
    rewrite floordiv_nonzero by exact Hz. reflexivity.
  - specialize (IH (pre ++ [lower]) upper a).
    rewrite <- app_assoc, length_app in IH. simpl in IH.
    rewrite Nat.add_1_r in IH. exact IH.
Qed.

Lemma calc_quote_br_cons first rest a :
  _calc_quote_br (first :: rest) a = Return (calc_quote_closed first rest a).
Proof.
  unfold _calc_quote_br, calc_quote_closed, segment_range. simpl.
  destruct (a <=? ProbePoint.amount_in first).
  - destruct (Z.eqb_spec (ProbePoint.amount_in first) 0) as [Hz|Hz]; [reflexivity|].
    rewrite floordiv_nonzero by exact Hz. reflexivity.
  - pose proof (for_segments_br_scan rest [] first a) as Hscan.
    simpl in Hscan. rewrite Nat.sub_0_r, Hscan. simpl.
    destruct (scan 0 first rest a) as [r|]; [reflexivity|].
    rewrite index_last_cons. reflexivity.
Qed.

Lemma calc_quote_cons first rest a :
  _calc_quote (first :: rest) a = Return (calc_quote_closed first rest a).2.
Proof. rewrite calc_quote_erase, calc_quote_br_cons. reflexivity. Qed.

Lemma get_amount_out_br_early (d : DirectionBook.t) a b :
  a <= 0 \/ DirectionBook.probes d = [] ->
  get_amount_out_br d a b = Return (EarlyReturn, _empty_result d a 0 b).
Proof.
  intros H. unfold get_amount_out_br.
  destruct (Z.leb_spec a 0) as [Ha|Ha]; [reflexivity|].
  destruct H as [H|H]; [lia|]. rewrite H. reflexivity.
Qed.

Lemma get_amount_out_br_cons (d : DirectionBook.t) first rest a b :
  DirectionBook.probes d = first :: rest -> 0 < a ->
  get_amount_out_br d a b
  = Return ((calc_quote_closed first rest a).1,
            QuoteResult.mk (DirectionBook.from_token d) (DirectionBook.to_token d)
              a (calc_quote_closed first rest a).2 b).
Proof.
  intros Hp Ha. unfold get_amount_out_br. rewrite Hp.
  destruct (Z.leb_spec a 0) as [Hle|_]; [lia|]. simpl.
  rewrite calc_quote_br_cons. simpl.
  destruct (calc_quote_closed first rest a); reflexivity.
Qed.

(** Past the first point the closed form is the scan. *)
Lemma calc_quote_closed_scan first rest a :
  ProbePoint.amount_in first < a ->
  (calc_quote_closed first rest a).2 = scan_out 0 first rest a.
Proof.
  intros H. unfold calc_quote_closed, scan_out.
  destruct (Z.leb_spec a (ProbePoint.amount_in first)); [lia|].
  destruct (scan 0 first rest a); reflexivity.
Qed.

Lemma last_out_cons lower upper rest :
  last_out lower (upper :: rest) = last_out upper rest.
Proof.
  unfold last_out. rewrite last_cons. destruct (last rest); reflexivity.
Qed.

Lemma scan_out_cons k lower upper rest a :
  scan_out k lower (upper :: rest) a
  = if a <=? ProbePoint.amount_in upper then
      if ProbePoint.amount_in upper - ProbePoint.amount_in lower =? 0
      then ProbePoint.amount_out lower
      else ProbePoint.amount_out lower
           + ((a - ProbePoint.amount_in lower)
              * (ProbePoint.amount_out upper - ProbePoint.amount_out lower))
             / (ProbePoint.amount_in upper - ProbePoint.amount_in lower)
    else scan_out (S k) upper rest a.
Proof.
  unfold scan_out. cbn [scan].
  destruct (a <=? ProbePoint.amount_in upper).
  - destruct (_ =? 0); reflexivity.
  - rewrite last_out_cons. reflexivity.
Qed.

(** The loop only tests [amount_in <= upper.amount_in] after
    [lower.amount_in < amount_in] has been established, so the segment
    it stops in has a positive width: the [delta_in == 0] return is
    never taken. *)
Lemma scan_never_guard rest : forall k lower a i v,
  ProbePoint.amount_in lower < a ->
  scan k lower rest a <> Some (SegmentGuard i, v).
Proof.
  induction rest as [|upper rest IH]; intros k lower a i v Hlt; [discriminate|].
  cbn [scan].
  destruct (Z.leb_spec a (ProbePoint.amount_in upper)) as [Hle|Hgt].
  - destruct (Z.eqb_spec (ProbePoint.amount_in upper - ProbePoint.amount_in lower) 0);
      [lia|discriminate].
  - apply IH. exact Hgt.
Qed.

Lemma calc_quote_never_segment_guard probes a i v :
  _calc_quote_br probes a <> Return (SegmentGuard i, v).
Proof.
  destruct probes as [|first rest]; [discriminate|].
  rewrite calc_quote_br_cons. unfold calc_quote_closed.
  destruct (Z.leb_spec a (ProbePoint.amount_in first)) as [Hle|Hgt].
  - destruct (_ =? 0); discriminate.
  - pose proof (scan_never_guard rest 0 first a i v Hgt) as Hs.
    destruct (scan 0 first rest a) as [r|]; [|discriminate].
    intros [= ->]. apply Hs. reflexivity.
Qed.

(** A query that equals the [amount_in] of the point of index [i] of
    [rest], all points before it being smaller, stops on that point. *)
Lemma scan_hits_point rest : forall k prev i lower a,
  ProbePoint.amount_in prev < a ->
  rest !! i = Some lower ->
  ProbePoint.amount_in lower = a ->
  (forall j p, (j < i)%nat -> rest !! j = Some p -> ProbePoint.amount_in p < a) ->
  scan_out k prev rest a = ProbePoint.amount_out lower.
Proof.
  induction rest as [|upper rest IH]; intros k prev i lower a Hprev Hi Hin Hbefore;
    [discriminate|].
  rewrite scan_out_cons. destruct i as [|i]; simpl in Hi.
  - injection Hi as ->.
    destruct (Z.leb_spec a (ProbePoint.amount_in lower)); [|lia].
    destruct (Z.eqb_spec (ProbePoint.amount_in lower - ProbePoint.amount_in prev) 0);
      [lia|].
    rewrite Hin, Z.mul_comm, Z.div_mul by lia. lia.
  - assert (ProbePoint.amount_in upper < a) as Hup
      by (apply (Hbefore 0%nat upper); [lia|reflexivity]).
    destruct (Z.leb_spec a (ProbePoint.amount_in upper)); [lia|].
    apply (IH (S k) upper i lower a Hup Hi Hin).
    intros j p Hj Hp. apply (Hbefore (S j) p); [lia|exact Hp].
Qed.

(** A query above every point falls through the loop. *)
Lemma scan_beyond rest : forall k lower a,
  (forall p, p ∈ rest -> ProbePoint.amount_in p < a) ->
  scan k lower rest a = None.
Proof.
  induction rest as [|upper rest IH]; intros k lower a Hall; [reflexivity|].
  cbn [scan].
  assert (ProbePoint.amount_in upper < a) by (apply Hall; left).
  destruct (Z.leb_spec a (ProbePoint.amount_in upper)); [lia|].
  apply IH. intros p Hp. apply Hall. right. exact Hp.
Qed.

(** *** Arithmetic of one segment *)

Lemma segment_share_bounds (e din dout : Z) :
  0 < din -> 0 <= dout -> 0 <= e <= din -> 0 <= (e * dout) / din <= dout.
Proof.
  intros Hdin Hdout He. split.
  - apply Z.div_pos; nia.
  - apply Z.div_le_upper_bound; nia.
Qed.

Lemma segment_share_mono (e1 e2 din dout : Z) :
  0 < din -> 0 <= dout -> e1 <= e2 -> (e1 * dout) / din <= (e2 * dout) / din.
Proof.
  intros Hdin Hdout He. apply Z.div_le_mono; nia.
Qed.

(** *** Curves that satisfy the invariant of the data model *)

Lemma last_out_ge rest : forall lower,
  increasing_from lower rest -> ProbePoint.amount_out lower <= last_out lower rest.
Proof.
  induction rest as [|upper rest IH]; intros lower Hinc.
  - unfold last_out. simpl. lia.
  - destruct Hinc as (_ & Hout & Hinc). rewrite last_out_cons.
    specialize (IH upper Hinc). lia.
Qed.

Lemma scan_out_bounds rest : forall k lower a,
  increasing_from lower rest -> ProbePoint.amount_in lower < a ->
  ProbePoint.amount_out lower <= scan_out k lower rest a <= last_out lower rest.
Proof.
  induction rest as [|upper rest IH]; intros k lower a Hinc Hlt.
  - unfold scan_out, last_out. simpl. lia.
  - destruct Hinc as (Hin & Hout & Hinc).
    rewrite scan_out_cons, last_out_cons.
    pose proof (last_out_ge rest upper Hinc) as Hlast.
    destruct (Z.leb_spec a (ProbePoint.amount_in upper)) as [Hle|Hgt].
    + destruct (Z.eqb_spec (ProbePoint.amount_in upper - ProbePoint.amount_in lower) 0);
        [lia|].
      pose proof (segment_share_bounds (a - ProbePoint.amount_in lower)
                    (ProbePoint.amount_in upper - ProbePoint.amount_in lower)
                    (ProbePoint.amount_out upper - ProbePoint.amount_out lower)
                    ltac:(lia) ltac:(lia) ltac:(lia)).
      lia.
    + specialize (IH (S k) upper a Hinc Hgt). lia.
Qed.

Lemma scan_out_mono rest : forall k lower a b,
  increasing_from lower rest -> ProbePoint.amount_in lower < a -> a <= b ->
  scan_out k lower rest a <= scan_out k lower rest b.
Proof.
  induction rest as [|upper rest IH]; intros k lower a b Hinc Hlt Hab.
  - unfold scan_out. simpl. lia.
  - destruct Hinc as (Hin & Hout & Hinc).
    rewrite !scan_out_cons.
    destruct (Z.leb_spec a (ProbePoint.amount_in upper)) as [Ha|Ha];
      destruct (Z.leb_spec b (ProbePoint.amount_in upper)) as [Hb|Hb]; try lia.
    + destruct (Z.eqb_spec (ProbePoint.amount_in upper - ProbePoint.amount_in lower) 0);
        [lia|].
      pose proof (segment_share_mono (a - ProbePoint.amount_in lower)
                    (b - ProbePoint.amount_in lower)
                    (ProbePoint.amount_in upper - ProbePoint.amount_in lower)
                    (ProbePoint.amount_out upper - ProbePoint.amount_out lower)
                    ltac:(lia) ltac:(lia) ltac:(lia)).
      lia.
    + destruct (Z.eqb_spec (ProbePoint.amount_in upper - ProbePoint.amount_in lower) 0);
        [lia|].
      pose proof (segment_share_bounds (a - ProbePoint.amount_in lower)
                    (ProbePoint.amount_in upper - ProbePoint.amount_in lower)
                    (ProbePoint.amount_out upper - ProbePoint.amount_out lower)
                    ltac:(lia) ltac:(lia) ltac:(lia)).
      pose proof (scan_out_bounds rest (S k) upper b Hinc Hb). lia.
    + apply IH; assumption.
Qed.

Lemma closed_bounds first rest a :
  well_formed_curve (first :: rest) -> 0 < a ->
  0 <= (calc_quote_closed first rest a).2 <= last_out first rest.
Proof.
  intros [Hnn Hinc] Ha.
  pose proof (last_out_ge rest first Hinc) as Hlast.
  destruct (Z.le_gt_cases a (ProbePoint.amount_in first)) as [Hle|Hgt].
  - unfold calc_quote_closed.
    destruct (Z.leb_spec a (ProbePoint.amount_in first)); [|lia].
    destruct (Z.eqb_spec (ProbePoint.amount_in first) 0); [lia|]. simpl.
    pose proof (segment_share_bounds a (ProbePoint.amount_in first)
                  (ProbePoint.amount_out first) ltac:(lia) Hnn ltac:(lia)).
    lia.
  - rewrite calc_quote_closed_scan by exact Hgt.
    pose proof (scan_out_bounds rest 0 first a Hinc Hgt). lia.
Qed.

Lemma closed_mono first rest a b :
  well_formed_curve (first :: rest) -> 0 < a -> a <= b ->
  (calc_quote_closed first rest a).2 <= (calc_quote_closed first rest b).2.
Proof.
  intros [Hnn Hinc] Ha Hab.
  destruct (Z.le_gt_cases a (ProbePoint.amount_in first)) as [Hle|Hgt].
  - assert ((calc_quote_closed first rest a).2
            = (a * ProbePoint.amount_out first) / ProbePoint.amount_in first) as ->.
    { unfold calc_quote_closed.
      destruct (Z.leb_spec a (ProbePoint.amount_in first)); [|lia].
      destruct (Z.eqb_spec (ProbePoint.amount_in first) 0); [lia|reflexivity]. }
    destruct (Z.le_gt_cases b (ProbePoint.amount_in first)) as [Hble|Hbgt].
    + unfold calc_quote_closed.
      destruct (Z.leb_spec b (ProbePoint.amount_in first)); [|lia].
      destruct (Z.eqb_spec (ProbePoint.amount_in first) 0); [lia|]. simpl.
      apply segment_share_mono; lia.
    + rewrite calc_quote_closed_scan by exact Hbgt.
      pose proof (segment_share_bounds a (ProbePoint.amount_in first)
                    (ProbePoint.amount_out first) ltac:(lia) Hnn ltac:(lia)).
      pose proof (scan_out_bounds rest 0 first b Hinc Hbgt). lia.
  - rewrite !calc_quote_closed_scan by lia.
    apply scan_out_mono; assumption.
Qed.

(** The invariant read off the indices gives the recursive one. *)
Lemma increasing_from_indexed rest : forall p,
  strictly_increasing_in (p :: rest) -> nondecreasing_out (p :: rest) ->
  increasing_from p rest.
Proof.
  induction rest as [|q rest IH]; intros p Hin Hout; [exact I|].
  split; [|split].
  - apply (Hin 0%nat 1%nat); [lia|reflexivity|reflexivity].
  - apply (Hout 0%nat 1%nat); [lia|reflexivity|reflexivity].
  - apply IH.
    + intros i j x y Hij Hx Hy. apply (Hin (S i) (S j)); [lia|exact Hx|exact Hy].
    + intros i j x y Hij Hx Hy. apply (Hout (S i) (S j)); [lia|exact Hx|exact Hy].
Qed.

Lemma well_formed_indexed probes :
  strictly_increasing_in probes -> nondecreasing_out probes -> nonnegative_out probes ->
  well_formed_curve probes.
Proof.
  destruct probes as [|first rest]; intros Hin Hout Hnn; [exact I|].
  split.
  - apply (Hnn 0%nat). reflexivity.
  - apply increasing_from_indexed; assumption.
Qed.

(** *** [get_amount_out] in closed form *)

Lemma get_amount_out_early (d : DirectionBook.t) a b :
  a <= 0 \/ DirectionBook.probes d = [] ->
  get_amount_out d a b = Return (_empty_result d a 0 b).
Proof.
  intros H. rewrite get_amount_out_erase, get_amount_out_br_early by exact H.
  reflexivity.
Qed.

Lemma get_amount_out_cons (d : DirectionBook.t) first rest a b :
  DirectionBook.probes d = first :: rest -> 0 < a ->
  get_amount_out d a b
  = Return (QuoteResult.mk (DirectionBook.from_token d) (DirectionBook.to_token d)
              a (calc_quote_closed first rest a).2 b).
Proof.
  intros Hp Ha.
  rewrite get_amount_out_erase, (get_amount_out_br_cons d first rest) by assumption.
  reflexivity.
Qed.

(** No input makes [get_amount_out] raise. *)
Lemma get_amount_out_returns (d : DirectionBook.t) a b :
  exists out,
    get_amount_out d a b
    = Return (QuoteResult.mk (DirectionBook.from_token d) (DirectionBook.to_token d)
                a out b).
Proof.
  destruct (DirectionBook.probes d) as [|first rest] eqn:Hp.
  - exists 0. apply get_amount_out_early. right. exact Hp.
  - destruct (Z.le_gt_cases a 0) as [Hle|Hgt].
    + exists 0. apply get_amount_out_early. left. exact Hle.
    + eexists. apply (get_amount_out_cons d first rest); assumption.
Qed.

Lemma scan_branch_shape rest : forall k lower a br v,
  scan k lower rest a = Some (br, v) ->
  exists i, br = SegmentGuard i \/ br = Segment i.
Proof.
  induction rest as [|upper rest IH]; intros k lower a br v; [discriminate|].
  cbn [scan]. destruct (a <=? ProbePoint.amount_in upper).
  - destruct (_ =? 0); intros [= <- <-]; exists k; [left|right]; reflexivity.
  - apply IH.
Qed.

(** With a positive query the [first.amount_in == 0] return is not
    taken. *)
Lemma closed_never_origin_guard first rest a :
  0 < a -> (calc_quote_closed first rest a).1 <> OriginGuard.
Proof.
  intros Ha. unfold calc_quote_closed.
  destruct (Z.leb_spec a (ProbePoint.amount_in first)) as [Hle|Hgt].
  - destruct (Z.eqb_spec (ProbePoint.amount_in first) 0); [lia|discriminate].
  - destruct (scan 0 first rest a) as [[br v]|] eqn:Hs; [|discriminate].
    destruct (scan_branch_shape _ _ _ _ _ _ Hs) as [i [-> | ->]]; discriminate.
Qed.

Lemma closed_origin_segment first rest a :
  0 < a -> (calc_quote_closed first rest a).1 = OriginSegment ->
  a <= ProbePoint.amount_in first.
Proof.
  intros Ha. unfold calc_quote_closed.
  destruct (Z.leb_spec a (ProbePoint.amount_in first)) as [Hle|Hgt]; [intros; lia|].
  destruct (scan 0 first rest a) as [[br v]|] eqn:Hs; [|discriminate].
  destruct (scan_branch_shape _ _ _ _ _ _ Hs) as [i [-> | ->]]; discriminate.
Qed.

End EngineFacts.

(* ================================================================== *)
(** * The engine: the properties of the specification                   *)
(* ================================================================== *)

(** C1. On the curve [(100,200),(300,500)] the engine answers 100 for
    an input of 50 (segment from the origin), 350 for an input of 200
    (segment between the two points) and 500 for an input of 1000 (cap at
    the last point), through [get_amount_out] and through [_calc_quote]. *)
Theorem exact_interpolation (from_token to_token : string) (block_number : Z) :
  let d := book_of from_token to_token [(100, 200); (300, 500)] in
  (quoted_out (get_amount_out d 50 block_number) = Return 100
   /\ quoted_out (get_amount_out d 200 block_number) = Return 350
   /\ quoted_out (get_amount_out d 1000 block_number) = Return 500)
  /\ (_calc_quote (DirectionBook.probes d) 50 = Return 100
      /\ _calc_quote (DirectionBook.probes d) 200 = Return 350
      /\ _calc_quote (DirectionBook.probes d) 1000 = Return 500).
Proof. repeat split; reflexivity. Qed.

(** C7. With [amount_in <= 0], whatever the curve, and with an empty
    probe list, whatever [amount_in], [get_amount_out] returns (it does
    not raise) the result whose [amount_out] is 0. *)
Theorem zero_without_input_or_probes (d : DirectionBook.t) (amount_in block_number : Z) :
  amount_in <= 0 \/ DirectionBook.probes d = [] ->
  get_amount_out d amount_in block_number
  = Return (QuoteResult.mk (DirectionBook.from_token d) (DirectionBook.to_token d)
              amount_in 0 block_number).
Proof. intros H. rewrite get_amount_out_early by exact H. reflexivity. Qed.

Lemma zero_without_input_or_probes_witness :
  get_amount_out (book_of "WETH" "USDC" [(100, 200); (300, 500)]) (-5) 12
  = Return (QuoteResult.mk "WETH" "USDC" (-5) 0 12)
  /\ get_amount_out (book_of "WETH" "USDC" []) 40 12
     = Return (QuoteResult.mk "WETH" "USDC" 40 0 12).
Proof.
  split.
  - apply (zero_without_input_or_probes
             (book_of "WETH" "USDC" [(100, 200); (300, 500)]) (-5) 12).
    left. lia.
  - apply (zero_without_input_or_probes (book_of "WETH" "USDC" []) 40 12).
    right. reflexivity.
Defined.

(** C10. [get_amount_out] is total: on every direction book and every
    integer [amount_in] it returns a result, with no assumption on the
    probe list.  The return under [first.amount_in == 0] is never
    taken: when [_calc_quote] is called at all, [amount_in >= 1], and
    when the segment from the origin answers, [first.amount_in >= 1]. *)
Theorem get_amount_out_total (d : DirectionBook.t) (amount_in block_number : Z) :
  exists (br : branch) (r : QuoteResult.t),
    get_amount_out_br d amount_in block_number = Return (br, r)
    /\ get_amount_out d amount_in block_number = Return r
    /\ br <> OriginGuard
    /\ (br <> EarlyReturn ->
        1 <= amount_in
        /\ _calc_quote_br (DirectionBook.probes d) amount_in
           = Return (br, QuoteResult.amount_out r))
    /\ (br = OriginSegment ->
        exists first, DirectionBook.probes d !! 0%nat = Some first
                      /\ 1 <= amount_in <= ProbePoint.amount_in first).
Proof.
  destruct (DirectionBook.probes d) as [|first rest] eqn:Hp.
  - eexists _, _. rewrite get_amount_out_early, get_amount_out_br_early
      by (right; exact Hp).
    repeat split; try reflexivity; try discriminate; contradiction.
  - destruct (Z.le_gt_cases amount_in 0) as [Hle|Hgt].
    + eexists _, _. rewrite get_amount_out_early, get_amount_out_br_early
        by (left; exact Hle).
      repeat split; try reflexivity; try discriminate; contradiction.
    + eexists _, _.
      rewrite (get_amount_out_cons d first rest), (get_amount_out_br_cons d first rest)
        by assumption.
      split; [reflexivity|]. split; [reflexivity|].
      split; [apply closed_never_origin_guard; lia|]. split.
      * intros _. split; [lia|]. rewrite calc_quote_br_cons. simpl.
        destruct (calc_quote_closed first rest amount_in); reflexivity.
      * intros Hbr. exists first. split; [reflexivity|].
        pose proof (closed_origin_segment first rest amount_in Hgt Hbr). lia.
Qed.

(** C4, as the code has it.  On the curve [(100,200),(100,250)] a
    query of 100 returns 200, the output of the lower of the two points,
    and raises nothing.  In general, when two consecutive points share
    their [amount_in], the query is that amount, it is positive and every
    earlier point is below it (the lower point is the first to carry that
    amount), the engine returns the [amount_out] of the lower point of
    that zero-width segment.  And whatever the curve and the query, the
    engine returns: a zero-width segment never makes it fail. *)
Theorem degenerate_segment_lower_bound :
  (forall (from_token to_token : string) (block_number : Z),
     quoted_out (get_amount_out
                   (book_of from_token to_token [(100, 200); (100, 250)])
                   100 block_number) = Return 200)
  /\ (forall (d : DirectionBook.t) (amount_in block_number : Z)
            (i : nat) (lower upper : ProbePoint.t),
       DirectionBook.probes d !! i = Some lower ->
       DirectionBook.probes d !! S i = Some upper ->
       ProbePoint.amount_in upper - ProbePoint.amount_in lower = 0 ->
       amount_in = ProbePoint.amount_in lower ->
       0 < amount_in ->
       (forall (j : nat) (p : ProbePoint.t),
          (j < i)%nat -> DirectionBook.probes d !! j = Some p ->
          ProbePoint.amount_in p < amount_in) ->
       quoted_out (get_amount_out d amount_in block_number)
       = Return (ProbePoint.amount_out lower))
  /\ (forall (d : DirectionBook.t) (amount_in block_number : Z),
        exists out : Z,
          quoted_out (get_amount_out d amount_in block_number) = Return out).
Proof.
  split; [reflexivity|]. split;
    [|intros d a b; destruct (get_amount_out_returns d a b) as [out ->];
      exists out; reflexivity].
  intros d a b i lower upper Hlo Hup Hwidth Ha Hpos Hbefore.
  destruct (DirectionBook.probes d) as [|first rest] eqn:Hp; [discriminate|].
  rewrite (get_amount_out_cons d first rest) by assumption.
  unfold quoted_out. simpl. f_equal.
  destruct i as [|i]; simpl in Hlo.
  - injection Hlo as ->. unfold calc_quote_closed.
    destruct (Z.leb_spec a (ProbePoint.amount_in lower)); [|lia].
    destruct (Z.eqb_spec (ProbePoint.amount_in lower) 0); [lia|]. simpl.
    rewrite Ha, Z.mul_comm, Z.div_mul by lia. reflexivity.
  - assert (ProbePoint.amount_in first < a) as Hfirst
      by (apply (Hbefore 0%nat first); [lia|reflexivity]).
    rewrite calc_quote_closed_scan by exact Hfirst.
    apply (scan_hits_point rest 0 first i lower a Hfirst Hlo); [lia|].
    intros j p Hj Hpj. apply (Hbefore (S j) p); [lia|exact Hpj].
Qed.

Lemma degenerate_segment_lower_bound_witness :
  quoted_out (get_amount_out
                (book_of "WETH" "USDC" [(40, 90); (100, 200); (100, 250)]) 100 12)
  = Return 200.
Proof.
  apply (proj1 (proj2 degenerate_segment_lower_bound)
           (book_of "WETH" "USDC" [(40, 90); (100, 200); (100, 250)]) 100 12
           1%nat (ProbePoint.mk 100 200) (ProbePoint.mk 100 250)).
  - reflexivity.
  - reflexivity.
  - reflexivity.
  - reflexivity.
  - lia.
  - intros j p Hj Hp. destruct j as [|j]; [|lia].
    injection Hp as <-. simpl. lia.
Defined.

(** C4, as the claim states it, fails.  On the curve
    [(40,90),(100,200),(100,250),(100,300)] the points of index 2 and 3
    form a zero-width segment whose lower point gives 250, and the query
    100 is answered 200, from the segment that ends on the first point
    with that amount.  On the curve [(0,5),(0,7)] the query 0 is answered
    0, not the lower point's 5. *)
Lemma zero_width_lower_bound_fails :
  ~ (forall (d : DirectionBook.t) (amount_in block_number : Z)
            (i : nat) (lower upper : ProbePoint.t),
       DirectionBook.probes d !! i = Some lower ->
       DirectionBook.probes d !! S i = Some upper ->
       ProbePoint.amount_in upper - ProbePoint.amount_in lower = 0 ->
       amount_in = ProbePoint.amount_in lower ->
       quoted_out (get_amount_out d amount_in block_number)
       = Return (ProbePoint.amount_out lower))
  /\ quoted_out (get_amount_out
                   (book_of "WETH" "USDC" [(40, 90); (100, 200); (100, 250); (100, 300)])
                   100 12)
     = Return 200
  /\ quoted_out (get_amount_out (book_of "WETH" "USDC" [(0, 5); (0, 7)]) 0 12) = Return 0.
Proof.
  split; [|split; reflexivity].
  intros H.
  specialize (H (book_of "WETH" "USDC" [(40, 90); (100, 200); (100, 250); (100, 300)])
                100 12 2%nat (ProbePoint.mk 100 250) (ProbePoint.mk 100 300)
                eq_refl eq_refl eq_refl eq_refl).
  discriminate H.
Qed.

(** A query above every point of a non-empty probe list, in whatever
    order the points come, falls through the loop: [_calc_quote] returns
    the [amount_out] of the last point, and so does [get_amount_out] when
    the query is positive. *)
Theorem cap_beyond_every_point (d : DirectionBook.t) (amount_in block_number : Z)
    (last_point : ProbePoint.t) :
  last (DirectionBook.probes d) = Some last_point ->
  (forall p, p ∈ DirectionBook.probes d -> ProbePoint.amount_in p < amount_in) ->
  _calc_quote (DirectionBook.probes d) amount_in
  = Return (ProbePoint.amount_out last_point)
  /\ (0 < amount_in ->
      quoted_out (get_amount_out d amount_in block_number)
      = Return (ProbePoint.amount_out last_point)).
Proof.
  intros Hlast Hall.
  destruct (DirectionBook.probes d) as [|first rest] eqn:Hp; [discriminate|].
  assert ((calc_quote_closed first rest amount_in).2 = ProbePoint.amount_out last_point)
    as Hclosed.
  { assert (ProbePoint.amount_in first < amount_in) as Hfirst by (apply Hall; left).
    unfold calc_quote_closed.
    destruct (Z.leb_spec amount_in (ProbePoint.amount_in first)); [lia|].
    rewrite scan_beyond by (intros p Hin; apply Hall; right; exact Hin).
    simpl. unfold last_out. rewrite last_cons in Hlast.
    destruct (last rest); injection Hlast as <-; reflexivity. }
  split.
  - rewrite calc_quote_cons, Hclosed. reflexivity.
  - intros Hpos. rewrite (get_amount_out_cons d first rest) by assumption.
    unfold quoted_out. simpl. rewrite Hclosed. reflexivity.
Qed.

Lemma cap_beyond_every_point_witness :
  _calc_quote (curve [(100, 200); (300, 500)]) 1000 = Return 500
  /\ quoted_out (get_amount_out (book_of "WETH" "USDC" [(100, 200); (300, 500)]) 1000 12)
     = Return 500.
Proof.
  assert (forall p, p ∈ curve [(100, 200); (300, 500)] -> ProbePoint.amount_in p < 1000)
    as Hall.
  { intros p Hp. simpl in Hp. repeat (apply elem_of_cons in Hp as [-> | Hp]; [simpl; lia|]).
    apply elem_of_nil in Hp. contradiction. }
  destruct (cap_beyond_every_point (book_of "WETH" "USDC" [(100, 200); (300, 500)])
              1000 12 (ProbePoint.mk 300 500) eq_refl Hall) as [Hcalc Hget].
  split; [exact Hcalc|]. apply Hget. lia.
Defined.

(** Outside the invariant of the data model the last point alone does
    not decide the cap: on the probe list [(100,200),(300,500),(200,400)],
    which is not sorted, the query 250 is above the last point's
    [amount_in], 200, and is answered 425 from the segment that ends at
    300; on [(-5,3)], whose [amount_in] is negative, the query 0 is above
    the last point and is answered 0. *)
Lemma cap_beyond_last_point_fails :
  ~ (forall (d : DirectionBook.t) (amount_in block_number : Z) (last_point : ProbePoint.t),
       last (DirectionBook.probes d) = Some last_point ->
       ProbePoint.amount_in last_point < amount_in ->
       quoted_out (get_amount_out d amount_in block_number)
       = Return (ProbePoint.amount_out last_point))
  /\ quoted_out (get_amount_out
                   (book_of "WETH" "USDC" [(100, 200); (300, 500); (200, 400)]) 250 12)
     = Return 425
  /\ quoted_out (get_amount_out (book_of "WETH" "USDC" [(-5, 3)]) 0 12) = Return 0.
Proof.
  split; [|split; reflexivity].
  intros H.
  specialize (H (book_of "WETH" "USDC" [(100, 200); (300, 500); (200, 400)]) 250 12
                (ProbePoint.mk 200 400) eq_refl ltac:(simpl; lia)).
  discriminate H.
Qed.

(** C9. On a curve whose points have strictly increasing [amount_in]
    and non-negative, non-decreasing [amount_out], the engine returns for
    every input, its output is monotone non-decreasing in [amount_in], and
    no output exceeds the [amount_out] of the last point. *)
Theorem monotone_and_capped (d : DirectionBook.t) (a1 a2 block_number : Z) :
  strictly_increasing_in (DirectionBook.probes d) ->
  nondecreasing_out (DirectionBook.probes d) ->
  nonnegative_out (DirectionBook.probes d) ->
  a1 <= a2 ->
  exists out1 out2 : Z,
    quoted_out (get_amount_out d a1 block_number) = Return out1
    /\ quoted_out (get_amount_out d a2 block_number) = Return out2
    /\ out1 <= out2
    /\ (forall last_point, last (DirectionBook.probes d) = Some last_point ->
          out1 <= ProbePoint.amount_out last_point
          /\ out2 <= ProbePoint.amount_out last_point).
Proof.
  intros Hin Hout Hnn Hle.
  pose proof (well_formed_indexed _ Hin Hout Hnn) as Hwf.
  destruct (DirectionBook.probes d) as [|first rest] eqn:Hp.
  - exists 0, 0. rewrite !get_amount_out_early by (right; exact Hp).
    split; [reflexivity|]. split; [reflexivity|]. split; [lia|]. discriminate.
  - assert (forall last_point, last (first :: rest) = Some last_point ->
              ProbePoint.amount_out last_point = last_out first rest) as Hlast.
    { intros lp Hlp. rewrite last_cons in Hlp. unfold last_out.
      destruct (last rest); injection Hlp as <-; reflexivity. }
    assert (0 <= last_out first rest) as Hcap.
    { destruct Hwf as [H0 Hinc]. pose proof (last_out_ge rest first Hinc). lia. }
    destruct (Z.le_gt_cases a1 0) as [H1|H1]; destruct (Z.le_gt_cases a2 0) as [H2|H2];
      try lia.
    + exists 0, 0. rewrite !get_amount_out_early by (left; assumption).
      split; [reflexivity|]. split; [reflexivity|]. split; [lia|].
      intros lp Hlp. rewrite (Hlast lp Hlp). lia.
    + exists 0, (calc_quote_closed first rest a2).2.
      rewrite get_amount_out_early by (left; assumption).
      rewrite (get_amount_out_cons d first rest) by assumption.
      pose proof (closed_bounds first rest a2 Hwf H2) as Hb2.
      split; [reflexivity|]. split; [reflexivity|]. split; [lia|].
      intros lp Hlp. rewrite (Hlast lp Hlp). lia.
    + exists (calc_quote_closed first rest a1).2, (calc_quote_closed first rest a2).2.
      rewrite !(get_amount_out_cons d first rest) by assumption.
      pose proof (closed_bounds first rest a1 Hwf H1) as Hb1.
      pose proof (closed_bounds first rest a2 Hwf H2) as Hb2.
      pose proof (closed_mono first rest a1 a2 Hwf H1 Hle) as Hmono.
      split; [reflexivity|]. split; [reflexivity|]. split; [lia|].
      intros lp Hlp. rewrite (Hlast lp Hlp). lia.
Qed.

(* ================================================================== *)
(** * Properties of the client                                          *)
(* ================================================================== *)

Section ClientFacts.

Import ElfomoFiClient.

Implicit Types (self : t) (st : loop) (result : FetchResult.t).
Implicit Types (outcome : fetch_outcome) (e : PyExc) (n : Z).

Lemma run_after_fetch_raise n e self :
  run (after_fetch n (Raise e)) self
  = (self, Finished (if is_Exception e then Return tt else Raise e)).
Proof. simpl. destruct (is_Exception e); reflexivity. Qed.

Lemma run_after_fetch_stale n result self :
  FetchResult.block_number result <= _current_block self ->
  run (after_fetch n (Return result)) self = (self, Finished (Return tt)).
Proof.
  intros Hstale. unfold after_fetch.
  destruct (build_new_state result) as [new_dirs new_pairs]. simpl.
  destruct (Z.leb_spec (FetchResult.block_number result) (_current_block self));
    [reflexivity|lia].
Qed.

Lemma run_after_fetch_fresh n result self :
  _current_block self < FetchResult.block_number result ->
  run (after_fetch n (Return result)) self = (snapshot_of result, Finished (Return tt)).
Proof.
  intros Hfresh. unfold after_fetch, snapshot_of.
  destruct (build_new_state result) as [new_dirs new_pairs]. simpl.
  destruct (Z.leb_spec (FetchResult.block_number result) (_current_block self));
    [lia|reflexivity].
Qed.

(** The wrapper of the listener changes what a task finishes with,
    not what it does to the client. *)
Lemma run_run_callback (c : coro unit) : forall self,
  run (_run_callback c) self
  = match run c self with
    | (self', Finished (Raise e)) =>
        (self', Finished (if is_Exception e then Return tt else Raise e))
    | (self', Finished (Return v)) => (self', Finished (Return v))
    | (self', Suspended k) => (self', Suspended (fun o => _run_callback (k o)))
    end.
Proof.
  induction c as [r|k IH|w k IH|k IH]; intros self; simpl.
  - destruct r as [v|e]; [reflexivity|]. destruct (is_Exception e); reflexivity.
  - apply IH.
  - apply IH.
  - reflexivity.
Qed.

(** What resuming such a task does to the client. *)
Lemma run_refresh_task n outcome self :
  exists r,
    run (_run_callback (after_fetch n outcome)) self
    = (match outcome with
       | Return result =>
           if FetchResult.block_number result <=? _current_block self then self
           else snapshot_of result
       | Raise _ => self
       end, Finished r).
Proof.
  rewrite run_run_callback. destruct outcome as [result|e].
  - destruct (Z.leb_spec (FetchResult.block_number result) (_current_block self)).
    + rewrite run_after_fetch_stale by assumption. eexists; reflexivity.
    + rewrite run_after_fetch_fresh by assumption. eexists; reflexivity.
  - rewrite run_after_fetch_raise.
    destruct (is_Exception e); simpl; eexists; reflexivity.
Qed.

Lemma step_new_block st n :
  step st (NewBlock n)
  = mkloop (client st) (tasks st ++ [fun o => _run_callback (after_fetch n o)]).
Proof. reflexivity. Qed.

Lemma step_fetch_completes st i outcome k n :
  tasks st !! i = Some k ->
  (forall o, k o = _run_callback (after_fetch n o)) ->
  step st (FetchCompletes i outcome)
  = mkloop (match outcome with
            | Return result =>
                if FetchResult.block_number result <=? _current_block (client st)
                then client st else snapshot_of result
            | Raise _ => client st
            end) (delete i (tasks st)).
Proof.
  intros Hi Hk. simpl. rewrite Hi, Hk.
  destruct (run_refresh_task n outcome (client st)) as [r ->]. reflexivity.
Qed.

Lemma step_tasks st ev :
  Forall is_refresh_task (tasks st) -> Forall is_refresh_task (tasks (step st ev)).
Proof.
  intros Hinv. destruct ev as [n|i outcome|].
  - rewrite step_new_block. simpl. apply Forall_app. split; [exact Hinv|].
    apply Forall_singleton. exists n. reflexivity.
  - destruct (tasks st !! i) as [k|] eqn:Hi.
    + pose proof (proj1 (Forall_lookup _ _) Hinv i k Hi) as [n Hk].
      rewrite (step_fetch_completes st i outcome k n Hi Hk). simpl.
      apply Forall_delete. exact Hinv.
    + simpl. rewrite Hi. exact Hinv.
  - exact Hinv.
Qed.

Lemma run_events_tasks evs : forall st,
  Forall is_refresh_task (tasks st) ->
  Forall is_refresh_task (tasks (run_events st evs)).
Proof.
  induction evs as [|ev evs IH]; intros st Hinv; [exact Hinv|].
  simpl. apply IH, step_tasks, Hinv.
Qed.

Lemma started_tasks evs : Forall is_refresh_task (tasks (run_events started evs)).
Proof. apply run_events_tasks. constructor. Qed.

(** One event either leaves the client as it is or publishes, whole,
    the snapshot of a result with a higher block number. *)
Lemma step_client st ev :
  Forall is_refresh_task (tasks st) ->
  client (step st ev) = client st
  \/ exists i result,
       ev = FetchCompletes i (Return result)
       /\ _current_block (client st) < FetchResult.block_number result
       /\ client (step st ev) = snapshot_of result.
Proof.
  intros Hinv. destruct ev as [n|i outcome|]; [left; reflexivity| |left; reflexivity].
  destruct (tasks st !! i) as [k|] eqn:Hi.
  - pose proof (proj1 (Forall_lookup _ _) Hinv i k Hi) as [n Hk].
    rewrite (step_fetch_completes st i outcome k n Hi Hk). simpl.
    destruct outcome as [result|e]; [|left; reflexivity].
    destruct (Z.leb_spec (FetchResult.block_number result) (_current_block (client st)));
      [left; reflexivity|].
    right. exists i, result. repeat split. assumption.
  - left. simpl. rewrite Hi. reflexivity.
Qed.

Lemma run_events_app st evs1 evs2 :
  run_events st (evs1 ++ evs2) = run_events (run_events st evs1) evs2.
Proof. apply fold_left_app. Qed.

Lemma step_block_monotone st ev :
  Forall is_refresh_task (tasks st) ->
  _current_block (client st) <= _current_block (client (step st ev)).
Proof.
  intros Hinv. destruct (step_client st ev Hinv) as [-> | (i & result & _ & Hlt & ->)].
  - lia.
  - simpl. lia.
Qed.

Lemma run_events_block_monotone evs : forall st,
  Forall is_refresh_task (tasks st) ->
  _current_block (client st) <= _current_block (client (run_events st evs)).
Proof.
  induction evs as [|ev evs IH]; intros st Hinv; simpl; [lia|].
  pose proof (step_block_monotone st ev Hinv).
  pose proof (IH (step st ev) (step_tasks st ev Hinv)). lia.
Qed.

Lemma delivered_app evs1 evs2 :
  delivered (evs1 ++ evs2) = delivered evs1 ++ delivered evs2.
Proof.
  induction evs1 as [|ev evs1 IH]; [reflexivity|].
  simpl. destruct ev as [n|i [result|e]|]; rewrite ?IH; reflexivity.
Qed.

(** After any run the client is a whole snapshot. *)
Lemma client_is_whole_snapshot evs :
  whole_snapshot (delivered evs) (client (run_events started evs)).
Proof.
  induction evs as [|ev evs IH] using rev_ind; [left; reflexivity|].
  rewrite run_events_app, delivered_app. simpl.
  destruct (step_client (run_events started evs) ev (started_tasks evs))
    as [-> | (i & result & -> & _ & ->)].
  - destruct IH as [IH | (result & Hin & IH)]; [left; exact IH|].
    right. exists result. split; [|exact IH].
    apply elem_of_app. left. exact Hin.
  - right. exists result. split; [|reflexivity].
    apply elem_of_app. right. simpl. left.
Qed.

(** What a reader finds is the client after the events before it. *)
Lemma observations_prefix evs : forall st self,
  self ∈ observations st evs ->
  exists evs1 evs2,
    evs = evs1 ++ ReaderRuns :: evs2 /\ self = client (run_events st evs1).
Proof.
  induction evs as [|ev evs IH]; intros st self Hin.
  - apply elem_of_nil in Hin. contradiction.
  - assert (self ∈ observations (step st ev) evs ->
            exists evs1 evs2,
              ev :: evs = evs1 ++ ReaderRuns :: evs2
              /\ self = client (run_events st evs1)) as Hrest.
    { intros Hin'. destruct (IH _ _ Hin') as (evs1 & evs2 & -> & ->).
      exists (ev :: evs1), evs2. split; reflexivity. }
    destruct ev as [n|i outcome|]; simpl in Hin; try (apply Hrest; exact Hin).
    apply elem_of_cons in Hin as [-> | Hin].
    + exists [], evs. split; reflexivity.
    + apply Hrest. exact Hin.
Qed.

End ClientFacts.

(* ================================================================== *)
(** * The client: the properties of the specification                   *)
(* ================================================================== *)

Section ClientClaims.

Import ElfomoFiClient.

Lemma refresh_run self n outcome :
  refresh self n outcome = run (after_fetch n outcome) self.
Proof. reflexivity. Qed.

(** The publish is five stores, and the client passes through the
    four partial states between them; they lie inside one stretch of
    [run], where no other task and no reader is scheduled. *)
Lemma publish_passes_through_partial_states self n result :
  _current_block self < FetchResult.block_number result ->
  exists s1 s2 s3 s4,
    run_states (after_fetch n (Return result)) self
    = [s1; s2; s3; s4; snapshot_of result]
    /\ _directions s1 = _directions (snapshot_of result)
    /\ _current_block s1 = _current_block self.
Proof.
  intros Hfresh. unfold after_fetch, snapshot_of.
  destruct (build_new_state result) as [new_dirs new_pairs]. simpl.
  destruct (Z.leb_spec (FetchResult.block_number result) (_current_block self));
    [lia|].
  simpl. do 4 eexists. split; [reflexivity|]. split; reflexivity.
Qed.

End ClientClaims.

(** C2. A refresh whose fetched result carries a block number that is
    not above the published one leaves the directions, the pair keys, the
    block number and the block timestamp as they were.  So, over every
    sequence of block notifications and fetch completions, in whatever
    order the fetches complete, the published block number never
    decreases, and a result that arrives with a block number not above the
    published one does not replace the published snapshot. *)
Theorem stale_refresh_is_discarded :
  (forall (self : ElfomoFiClient.t) (n : Z) (result : FetchResult.t),
     FetchResult.block_number result <= ElfomoFiClient._current_block self ->
     let self' := (ElfomoFiClient.refresh self n (Return result)).1 in
     ElfomoFiClient._directions self' = ElfomoFiClient._directions self
     /\ ElfomoFiClient._pair_keys self' = ElfomoFiClient._pair_keys self
     /\ ElfomoFiClient._current_block self' = ElfomoFiClient._current_block self
     /\ ElfomoFiClient._block_timestamp self' = ElfomoFiClient._block_timestamp self)
  /\ (forall evs1 evs2 : list ElfomoFiClient.event,
        ElfomoFiClient.current_block
          (ElfomoFiClient.client (ElfomoFiClient.run_events ElfomoFiClient.started evs1))
        <= ElfomoFiClient.current_block
             (ElfomoFiClient.client
                (ElfomoFiClient.run_events ElfomoFiClient.started (evs1 ++ evs2))))
  /\ (forall (evs : list ElfomoFiClient.event) (i : nat) (result : FetchResult.t),
        FetchResult.block_number result
        <= ElfomoFiClient.current_block
             (ElfomoFiClient.client (ElfomoFiClient.run_events ElfomoFiClient.started evs)) ->
        ElfomoFiClient.client
          (ElfomoFiClient.run_events ElfomoFiClient.started
             (evs ++ [ElfomoFiClient.FetchCompletes i (Return result)]))
        = ElfomoFiClient.client (ElfomoFiClient.run_events ElfomoFiClient.started evs)).
Proof.
  split; [|split].
  - intros self n result Hstale. simpl.
    rewrite refresh_run, run_after_fetch_stale by exact Hstale.
    repeat split; reflexivity.
  - intros evs1 evs2. rewrite run_events_app.
    apply run_events_block_monotone, started_tasks.
  - intros evs i result Hstale. rewrite run_events_app. simpl.
    destruct (step_client (ElfomoFiClient.run_events ElfomoFiClient.started evs)
                (ElfomoFiClient.FetchCompletes i (Return result)) (started_tasks evs))
      as [Hsame | (i' & result' & Hev & Hlt & _)]; [exact Hsame|].
    injection Hev as _ <-. unfold ElfomoFiClient.current_block in Hstale. lia.
Qed.

Lemma stale_refresh_is_discarded_witness :
  let self := ElfomoFiClient.snapshot_of (sample_result 10 1700000000) in
  let self' := (ElfomoFiClient.refresh self 9 (Return (sample_result 9 1699999988))).1 in
  ElfomoFiClient._directions self' = ElfomoFiClient._directions self
  /\ ElfomoFiClient._pair_keys self' = ElfomoFiClient._pair_keys self
  /\ ElfomoFiClient._current_block self' = 10
  /\ ElfomoFiClient._block_timestamp self' = 1700000000.
Proof.
  apply (proj1 stale_refresh_is_discarded
           (ElfomoFiClient.snapshot_of (sample_result 10 1700000000)) 9
           (sample_result 9 1699999988)).
  simpl. lia.
Defined.

(** C3. When the fetch raises, the refresh is abandoned: the client is
    left exactly as it was (directions, pair keys, block number, block
    timestamp and the initialized flag), [quote] answers as before, and,
    for every exception that derives from [Exception], the refresh
    itself returns normally.  The same holds for a task of the event loop
    whose fetch fails. *)
Theorem failed_fetch_abandons_refresh
    (to_checksum_address : string -> pyresult string)
    (self : ElfomoFiClient.t) (n : Z) (e : PyExc) :
  let after := ElfomoFiClient.refresh self n (Raise e) in
  (ElfomoFiClient._directions after.1 = ElfomoFiClient._directions self
   /\ ElfomoFiClient._pair_keys after.1 = ElfomoFiClient._pair_keys self
   /\ ElfomoFiClient._current_block after.1 = ElfomoFiClient._current_block self
   /\ ElfomoFiClient._block_timestamp after.1 = ElfomoFiClient._block_timestamp self
   /\ ElfomoFiClient._initialized after.1 = ElfomoFiClient._initialized self)
  /\ after.2 = ElfomoFiClient.Finished (if is_Exception e then Return tt else Raise e)
  /\ (forall (from_token to_token : string) (amount_in : Z),
        ElfomoFiClient.quote to_checksum_address after.1 from_token to_token amount_in
        = ElfomoFiClient.quote to_checksum_address self from_token to_token amount_in)
  /\ (forall (evs : list ElfomoFiClient.event) (i : nat),
        ElfomoFiClient.client
          (ElfomoFiClient.run_events ElfomoFiClient.started
             (evs ++ [ElfomoFiClient.FetchCompletes i (Raise e)]))
        = ElfomoFiClient.client (ElfomoFiClient.run_events ElfomoFiClient.started evs)).
Proof.
  simpl. rewrite refresh_run, run_after_fetch_raise. simpl.
  split; [repeat split; reflexivity|].
  split; [reflexivity|]. split; [reflexivity|].
  intros evs i. rewrite run_events_app. simpl.
  destruct (step_client (ElfomoFiClient.run_events ElfomoFiClient.started evs)
              (ElfomoFiClient.FetchCompletes i (Raise e)) (started_tasks evs))
    as [Hsame | (i' & result' & Hev & _)]; [exact Hsame|discriminate Hev].
Qed.

(** C6. For a direction whose normalised key [(f, t)] is not in the
    published mapping, [quote] returns [None] and raises nothing; when the
    key is present, [quote] is [get_amount_out] on that direction book with
    the published block number, which the result carries. *)
Theorem quote_absent_is_none_present_delegates
    (to_checksum_address : string -> pyresult string)
    (self : ElfomoFiClient.t) (from_token to_token f t : string) (amount_in : Z) :
  to_checksum_address from_token = Return f ->
  to_checksum_address to_token = Return t ->
  (ElfomoFiClient._directions self !! (f, t) = None ->
   ElfomoFiClient.quote to_checksum_address self from_token to_token amount_in
   = Return None)
  /\ (forall d : DirectionBook.t,
        ElfomoFiClient._directions self !! (f, t) = Some d ->
        ElfomoFiClient.quote to_checksum_address self from_token to_token amount_in
        = fmap (M:=pyresult) Some
            (get_amount_out d amount_in (ElfomoFiClient._current_block self))
        /\ exists r : QuoteResult.t,
             ElfomoFiClient.quote to_checksum_address self from_token to_token amount_in
             = Return (Some r)
             /\ QuoteResult.block_number r = ElfomoFiClient.current_block self).
Proof.
  intros Hf Ht. unfold ElfomoFiClient.quote, ElfomoFiClient._get_direction.
  rewrite Hf, Ht. simpl. split.
  - intros ->. reflexivity.
  - intros d ->. split; [reflexivity|].
    destruct (get_amount_out_returns d amount_in (ElfomoFiClient._current_block self))
      as [out Hr].
    rewrite Hr. eexists. split; reflexivity.
Qed.

Lemma quote_absent_is_none_present_delegates_witness :
  let self := ElfomoFiClient.snapshot_of (sample_result 10 1700000000) in
  ElfomoFiClient.quote sample_checksum self "WETH" "DAI" 50 = Return None
  /\ ElfomoFiClient.quote sample_checksum self "USDC" "WETH" 50
     = Return (Some (QuoteResult.mk "USDC" "WETH" 50 100 10)).
Proof.
  split.
  - apply (proj1 (quote_absent_is_none_present_delegates sample_checksum
                    (ElfomoFiClient.snapshot_of (sample_result 10 1700000000))
                    "WETH" "DAI" "WETH" "DAI" 50 eq_refl eq_refl)).
    vm_compute. reflexivity.
  - destruct (proj2 (quote_absent_is_none_present_delegates sample_checksum
                       (ElfomoFiClient.snapshot_of (sample_result 10 1700000000))
                       "USDC" "WETH" "USDC" "WETH" 50 eq_refl eq_refl)
                (build_direction_book "USDC" "WETH" (curve [(100, 200); (300, 500)])
                   2000 1000)) as [Hquote _].
    + vm_compute. reflexivity.
    + rewrite Hquote. reflexivity.
Defined.

(** C8, as the code has it: for readers on the event loop.  Readers and
    refresh tasks run on one event loop, which switches
    between them only where a task awaits, and the publish of
    [_on_new_block] has no [await] between its stores.  So whatever the
    block notifications, the fetch completions and their order, and
    however many readers run in between, each reader finds the client
    either as constructed or, in all its fields, the snapshot of one
    delivered fetch result: [current_block], [block_timestamp], [pairs],
    the directions and [quote] all read that one snapshot. *)
Theorem readers_see_whole_snapshots
    (to_checksum_address : string -> pyresult string)
    (evs : list ElfomoFiClient.event) (self : ElfomoFiClient.t) :
  self ∈ ElfomoFiClient.observations ElfomoFiClient.started evs ->
  self = ElfomoFiClient.fresh
  \/ exists result : FetchResult.t,
       result ∈ ElfomoFiClient.delivered evs
       /\ self = ElfomoFiClient.snapshot_of result
       /\ ElfomoFiClient.current_block self = FetchResult.block_number result
       /\ ElfomoFiClient.block_timestamp self = FetchResult.block_timestamp result
       /\ ElfomoFiClient.pairs self = (ElfomoFiClient.build_new_state result).2
       /\ ElfomoFiClient._directions self = (ElfomoFiClient.build_new_state result).1
       /\ (forall (from_token to_token : string) (amount_in : Z),
             ElfomoFiClient.quote to_checksum_address self from_token to_token amount_in
             = ElfomoFiClient.quote to_checksum_address
                 (ElfomoFiClient.snapshot_of result) from_token to_token amount_in).
Proof.
  intros Hseen.
  destruct (observations_prefix evs _ _ Hseen) as (evs1 & evs2 & -> & ->).
  destruct (client_is_whole_snapshot evs1) as [Hfresh | (result & Hin & Hsnap)];
    [left; exact Hfresh|].
  right. exists result. split.
  - rewrite delivered_app. apply elem_of_app. left. exact Hin.
  - rewrite Hsnap. repeat split; reflexivity.
Qed.

(** The curve [(100,200),(300,500)] satisfies the invariant. *)
Lemma sample_curve_invariant :
  strictly_increasing_in (curve [(100, 200); (300, 500)])
  /\ nondecreasing_out (curve [(100, 200); (300, 500)])
  /\ nonnegative_out (curve [(100, 200); (300, 500)]).
Proof.
  split; [|split].
  - intros [|[|i]] [|[|j]] p q Hij Hp Hq; simpl in *;
      try lia; try discriminate; injection Hp as <-; injection Hq as <-; simpl; lia.
  - intros [|[|i]] [|[|j]] p q Hij Hp Hq; simpl in *;
      try lia; try discriminate; injection Hp as <-; injection Hq as <-; simpl; lia.
  - intros [|[|i]] p Hp; simpl in *; try discriminate; injection Hp as <-; simpl; lia.
Defined.

Lemma monotone_and_capped_witness :
  exists out1 out2 : Z,
    quoted_out (get_amount_out (book_of "WETH" "USDC" [(100, 200); (300, 500)]) 150 12)
    = Return out1
    /\ quoted_out (get_amount_out (book_of "WETH" "USDC" [(100, 200); (300, 500)]) 299 12)
       = Return out2
    /\ out1 <= out2
    /\ (forall last_point,
          last (DirectionBook.probes (book_of "WETH" "USDC" [(100, 200); (300, 500)]))
          = Some last_point ->
          out1 <= ProbePoint.amount_out last_point
          /\ out2 <= ProbePoint.amount_out last_point).
Proof.
  apply (monotone_and_capped (book_of "WETH" "USDC" [(100, 200); (300, 500)]) 150 299 12
           (proj1 sample_curve_invariant)
           (proj1 (proj2 sample_curve_invariant))
           (proj2 (proj2 sample_curve_invariant))).
  lia.
Defined.


(** Whichever of the two racing fetches completes first, the run ends
    on block 11's snapshot, and the readers in between saw whole
    snapshots only. *)
Lemma racing_refreshes_either_order :
  ElfomoFiClient.observations ElfomoFiClient.started race_late_10
  = [ElfomoFiClient.snapshot_of (sample_result 11 1700000012);
     ElfomoFiClient.snapshot_of (sample_result 11 1700000012)]
  /\ ElfomoFiClient.observations ElfomoFiClient.started race_late_11
     = [ElfomoFiClient.snapshot_of (sample_result 10 1700000000);
        ElfomoFiClient.snapshot_of (sample_result 11 1700000012)].
Proof. split; reflexivity. Qed.

Lemma readers_see_whole_snapshots_witness :
  let self := ElfomoFiClient.snapshot_of (sample_result 11 1700000012) in
  self = ElfomoFiClient.fresh
  \/ exists result : FetchResult.t,
       result ∈ ElfomoFiClient.delivered race_late_10
       /\ self = ElfomoFiClient.snapshot_of result
       /\ ElfomoFiClient.current_block self = FetchResult.block_number result
       /\ ElfomoFiClient.block_timestamp self = FetchResult.block_timestamp result
       /\ ElfomoFiClient.pairs self = (ElfomoFiClient.build_new_state result).2
       /\ ElfomoFiClient._directions self = (ElfomoFiClient.build_new_state result).1
       /\ (forall (from_token to_token : string) (amount_in : Z),
             ElfomoFiClient.quote sample_checksum self from_token to_token amount_in
             = ElfomoFiClient.quote sample_checksum
                 (ElfomoFiClient.snapshot_of result) from_token to_token amount_in).
Proof.
  apply (readers_see_whole_snapshots sample_checksum race_late_10
           (ElfomoFiClient.snapshot_of (sample_result 11 1700000012))).
  vm_compute. left.
Defined.

(* ================================================================== *)
(** * More on the interpolation engine                                  *)
(* ================================================================== *)

Section SegmentFacts.

Implicit Types (probes rest : list ProbePoint.t) (prev lower upper : ProbePoint.t).
Implicit Types (a v : Z) (i j k m : nat).

(** When the scan answers from a segment, the segment brackets the
    query and every point up to its lower end is below the query. *)
Lemma scan_segment_brackets rest : forall k prev a i v,
  ProbePoint.amount_in prev < a ->
  scan k prev rest a = Some (Segment i, v) ->
  exists m lower upper,
    i = (k + m)%nat
    /\ (prev :: rest) !! m = Some lower
    /\ rest !! m = Some upper
    /\ ProbePoint.amount_in lower < a <= ProbePoint.amount_in upper
    /\ v = ProbePoint.amount_out lower
           + ((a - ProbePoint.amount_in lower)
              * (ProbePoint.amount_out upper - ProbePoint.amount_out lower))
             / (ProbePoint.amount_in upper - ProbePoint.amount_in lower)
    /\ (forall j p, (j <= m)%nat -> (prev :: rest) !! j = Some p ->
                    ProbePoint.amount_in p < a).
Proof.
  induction rest as [|up rest IH]; intros k prev a i v Hprev Hscan; [discriminate|].
  cbn [scan] in Hscan.
  destruct (Z.leb_spec a (ProbePoint.amount_in up)) as [Hle|Hgt].
  - destruct (ProbePoint.amount_in up - ProbePoint.amount_in prev =? 0);
      [discriminate|].
    injection Hscan as <- <-.
    exists 0%nat, prev, up. rewrite Nat.add_0_r.
    repeat split; try reflexivity; try lia.
    intros j p Hj Hp. assert (j = 0%nat) as -> by lia.
    injection Hp as <-. exact Hprev.
  - destruct (IH (S k) up a i v Hgt Hscan)
      as (m & lower & upper & -> & Hlo & Hup & Hbr & Hv & Hbelow).
    exists (S m), lower, upper. rewrite Nat.add_succ_r.
    repeat split; try assumption; try lia.
    intros j p Hj Hp. destruct j as [|j].
    + injection Hp as <-. exact Hprev.
    + apply (Hbelow j p); [lia|exact Hp].
Qed.

(** Conversely, the scan answers from the first segment whose upper end
    is not below the query. *)
Lemma scan_finds_bracket rest : forall k prev a m lower upper,
  (prev :: rest) !! m = Some lower ->
  rest !! m = Some upper ->
  (forall j p, (j <= m)%nat -> (prev :: rest) !! j = Some p ->
               ProbePoint.amount_in p < a) ->
  a <= ProbePoint.amount_in upper ->
  scan k prev rest a
  = Some (Segment (k + m),
          ProbePoint.amount_out lower
          + ((a - ProbePoint.amount_in lower)
             * (ProbePoint.amount_out upper - ProbePoint.amount_out lower))
            / (ProbePoint.amount_in upper - ProbePoint.amount_in lower)).
Proof.
  induction rest as [|up rest IH]; intros k prev a m lower upper Hlo Hup Hbelow Hle;
    [discriminate|].
  cbn [scan]. destruct m as [|m]; simpl in Hlo, Hup.
  - injection Hlo as <-. injection Hup as <-.
    assert (ProbePoint.amount_in prev < a) as Hprev
      by (apply (Hbelow 0%nat prev); [lia|reflexivity]).
    destruct (Z.leb_spec a (ProbePoint.amount_in up)); [|lia].
    destruct (Z.eqb_spec (ProbePoint.amount_in up - ProbePoint.amount_in prev) 0);
      [lia|].
    rewrite Nat.add_0_r. reflexivity.
  - assert (ProbePoint.amount_in up < a) as Hupper
      by (apply (Hbelow 1%nat up); [lia|reflexivity]).
    destruct (Z.leb_spec a (ProbePoint.amount_in up)); [lia|].
    rewrite Nat.add_succ_r.
    apply (IH (S k) up a m lower upper Hlo Hup); [|exact Hle].
    intros j p Hj Hp. apply (Hbelow (S j) p); [lia|exact Hp].
Qed.

(** On a strictly increasing curve the points up to index [i] are not
    above the point of index [i]. *)
Lemma increasing_below probes i lower :
  strictly_increasing_in probes -> probes !! i = Some lower ->
  forall j p, (j <= i)%nat -> probes !! j = Some p ->
              ProbePoint.amount_in p <= ProbePoint.amount_in lower.
Proof.
  intros Hinc Hi j p Hj Hp.
  destruct (decide (j = i)) as [->|Hne].
  - rewrite Hi in Hp. injection Hp as <-. lia.
  - pose proof (Hinc j i p lower ltac:(lia) Hp Hi). lia.
Qed.

End SegmentFacts.

(** X1. Called directly, [_calc_quote] raises [IndexError] on the empty
    probe list, whatever the amount, and on every non-empty list of
    integer points it returns, whatever the amount: no division by zero
    and no index out of range. *)
Theorem calc_quote_raises_only_on_empty (probes : list ProbePoint.t) (amount_in : Z) :
  (probes = [] /\ _calc_quote probes amount_in = Raise IndexError)
  \/ (probes <> [] /\ exists out, _calc_quote probes amount_in = Return out).
Proof.
  destruct probes as [|first rest].
  - left. split; reflexivity.
  - right. split; [discriminate|]. eexists. apply calc_quote_cons.
Qed.

(** X2. On a curve with strictly increasing [amount_in], a query that
    equals the (positive) [amount_in] of a probe point returns exactly
    that point's [amount_out]: the interpolation passes through every
    sample. *)
Theorem exact_at_probe_points (d : DirectionBook.t) (block_number : Z)
    (i : nat) (p : ProbePoint.t) :
  strictly_increasing_in (DirectionBook.probes d) ->
  DirectionBook.probes d !! i = Some p ->
  0 < ProbePoint.amount_in p ->
  quoted_out (get_amount_out d (ProbePoint.amount_in p) block_number)
  = Return (ProbePoint.amount_out p).
Proof.
  intros Hinc Hi Hpos.
  destruct (DirectionBook.probes d) as [|first rest] eqn:Hp; [discriminate|].
  rewrite (get_amount_out_cons d first rest) by assumption.
  unfold quoted_out. simpl. f_equal.
  destruct i as [|i]; simpl in Hi.
  - injection Hi as ->. unfold calc_quote_closed.
    destruct (Z.leb_spec (ProbePoint.amount_in p) (ProbePoint.amount_in p)); [|lia].
    destruct (Z.eqb_spec (ProbePoint.amount_in p) 0); [lia|]. simpl.
    rewrite Z.mul_comm, Z.div_mul by lia. reflexivity.
  - assert (ProbePoint.amount_in first < ProbePoint.amount_in p) as Hfirst
      by (apply (Hinc 0%nat (S i) first p); [lia|reflexivity|exact Hi]).
    rewrite calc_quote_closed_scan by exact Hfirst.
    apply (scan_hits_point rest 0 first i p _ Hfirst Hi eq_refl).
    intros j q Hj Hq. apply (Hinc (S j) (S i) q p); [lia|exact Hq|exact Hi].
Qed.

(** X3. On a curve with strictly increasing [amount_in], any two
    consecutive points that bracket a positive query,
    [lower.amount_in < amount_in <= upper.amount_in], determine the
    answer: [lower.amount_out + (excess * delta_out) // delta_in].  The
    linear scan returns what a search for the bracketing segment would. *)
Theorem bracketing_segment_answers (d : DirectionBook.t) (amount_in block_number : Z)
    (i : nat) (lower upper : ProbePoint.t) :
  strictly_increasing_in (DirectionBook.probes d) ->
  DirectionBook.probes d !! i = Some lower ->
  DirectionBook.probes d !! S i = Some upper ->
  ProbePoint.amount_in lower < amount_in <= ProbePoint.amount_in upper ->
  0 < amount_in ->
  quoted_out (get_amount_out d amount_in block_number)
  = Return (ProbePoint.amount_out lower
            + ((amount_in - ProbePoint.amount_in lower)
               * (ProbePoint.amount_out upper - ProbePoint.amount_out lower))
              / (ProbePoint.amount_in upper - ProbePoint.amount_in lower)).
Proof.
  intros Hinc Hlo Hup [Hlt Hle] Hpos.
  destruct (DirectionBook.probes d) as [|first rest] eqn:Hp; [discriminate|].
  rewrite (get_amount_out_cons d first rest) by assumption.
  unfold quoted_out. simpl. f_equal.
  pose proof (increasing_below _ i lower Hinc Hlo) as Hbelow.
  assert (ProbePoint.amount_in first < amount_in) as Hfirst.
  { pose proof (Hbelow 0%nat first ltac:(lia) eq_refl). lia. }
  rewrite calc_quote_closed_scan by exact Hfirst.
  unfold scan_out.
  rewrite (scan_finds_bracket rest 0 first amount_in i lower upper Hlo Hup);
    [reflexivity| |exact Hle].
  intros j p Hj Hpj. pose proof (Hbelow j p Hj Hpj). lia.
Qed.

(** X4. On any curve, sorted or not: when [_calc_quote] answers from
    the loop, at iteration [i], the two points it interpolates between
    bracket the query, [lower.amount_in < amount_in <= upper.amount_in],
    every point up to index [i] is below the query, and the answer is
    [lower.amount_out + (excess * delta_out) // delta_in] with
    [0 < excess <= delta_in]. *)
Theorem segment_answer_brackets_query (probes : list ProbePoint.t) (amount_in : Z)
    (i : nat) (out : Z) :
  _calc_quote_br probes amount_in = Return (Segment i, out) ->
  exists lower upper : ProbePoint.t,
    probes !! i = Some lower
    /\ probes !! S i = Some upper
    /\ ProbePoint.amount_in lower < amount_in <= ProbePoint.amount_in upper
    /\ out = ProbePoint.amount_out lower
             + ((amount_in - ProbePoint.amount_in lower)
                * (ProbePoint.amount_out upper - ProbePoint.amount_out lower))
               / (ProbePoint.amount_in upper - ProbePoint.amount_in lower)
    /\ (forall (j : nat) (p : ProbePoint.t),
          (j <= i)%nat -> probes !! j = Some p -> ProbePoint.amount_in p < amount_in).
Proof.
  destruct probes as [|first rest]; [discriminate|].
  rewrite calc_quote_br_cons. unfold calc_quote_closed.
  destruct (Z.leb_spec amount_in (ProbePoint.amount_in first)) as [Hle|Hgt].
  - destruct (_ =? 0); discriminate.
  - destruct (scan 0 first rest amount_in) as [r|] eqn:Hscan; [|discriminate].
    intros [= ->].
    destruct (scan_segment_brackets rest 0 first amount_in i out Hgt Hscan)
      as (m & lower & upper & Hi & Hlo & Hup & Hbr & Hv & Hbelow).
    simpl in Hi. subst m. exists lower, upper. repeat split; try assumption; lia.
Qed.

Lemma exact_at_probe_points_witness :
  quoted_out (get_amount_out (book_of "WETH" "USDC" [(100, 200); (300, 500)]) 300 12)
  = Return 500.
Proof.
  apply (exact_at_probe_points (book_of "WETH" "USDC" [(100, 200); (300, 500)]) 12
           1%nat (ProbePoint.mk 300 500) (proj1 sample_curve_invariant) eq_refl).
  simpl. lia.
Defined.

Lemma bracketing_segment_answers_witness :
  quoted_out (get_amount_out (book_of "WETH" "USDC" [(100, 200); (300, 500)]) 201 12)
  = Return (200 + ((201 - 100) * (500 - 200)) / (300 - 100)).
Proof.
  apply (bracketing_segment_answers (book_of "WETH" "USDC" [(100, 200); (300, 500)])
           201 12 0%nat (ProbePoint.mk 100 200) (ProbePoint.mk 300 500)
           (proj1 sample_curve_invariant) eq_refl eq_refl).
  - simpl. lia.
  - lia.
Defined.

Lemma segment_answer_brackets_query_witness :
  exists lower upper : ProbePoint.t,
    curve [(100, 200); (300, 500); (200, 400)] !! 0%nat = Some lower
    /\ curve [(100, 200); (300, 500); (200, 400)] !! 1%nat = Some upper
    /\ ProbePoint.amount_in lower < 250 <= ProbePoint.amount_in upper
    /\ 425 = ProbePoint.amount_out lower
             + ((250 - ProbePoint.amount_in lower)
                * (ProbePoint.amount_out upper - ProbePoint.amount_out lower))
               / (ProbePoint.amount_in upper - ProbePoint.amount_in lower)
    /\ (forall (j : nat) (p : ProbePoint.t),
          (j <= 0)%nat -> curve [(100, 200); (300, 500); (200, 400)] !! j = Some p ->
          ProbePoint.amount_in p < 250).
Proof.
  apply (segment_answer_brackets_query
           (curve [(100, 200); (300, 500); (200, 400)]) 250 0%nat 425).
  reflexivity.
Defined.

Section RangeFacts.

Implicit Types (probes rest : list ProbePoint.t) (first lower upper : ProbePoint.t).

(** The share of [delta_out] that a segment adds lies between 0 and
    [delta_out], whatever the sign of [delta_out]. *)
Lemma segment_share_between (e din dout : Z) :
  0 < e <= din ->
  Z.min 0 dout <= (e * dout) / din <= Z.max 0 dout.
Proof.
  intros He. split.
  - apply Z.div_le_lower_bound; [lia|]. nia.
  - apply Z.div_le_upper_bound; [lia|]. nia.
Qed.

Lemma last_out_lookup first rest :
  exists i p, (first :: rest) !! i = Some p /\ last_out first rest = ProbePoint.amount_out p.
Proof.
  unfold last_out. destruct (last rest) as [p|] eqn:Hlast; simpl.
  - rewrite last_lookup in Hlast. exists (S (pred (length rest))), p.
    split; [exact Hlast|reflexivity].
  - exists 0%nat, first. split; reflexivity.
Qed.

(** With non-negative samples, the closed form is non-negative and not
    above some sample. *)
Lemma closed_range first rest a :
  nonnegative_out (first :: rest) -> 0 < a ->
  0 <= (calc_quote_closed first rest a).2
  /\ exists i p, (first :: rest) !! i = Some p
                 /\ (calc_quote_closed first rest a).2 <= ProbePoint.amount_out p.
Proof.
  intros Hnn Ha. unfold calc_quote_closed.
  destruct (Z.leb_spec a (ProbePoint.amount_in first)) as [Hle|Hgt].
  - destruct (Z.eqb_spec (ProbePoint.amount_in first) 0); [lia|]. simpl.
    pose proof (Hnn 0%nat first eq_refl) as H0.
    pose proof (segment_share_bounds a (ProbePoint.amount_in first)
                  (ProbePoint.amount_out first) ltac:(lia) H0 ltac:(lia)) as Hb.
    split; [lia|]. exists 0%nat, first. split; [reflexivity|lia].
  - destruct (scan 0 first rest a) as [[br v]|] eqn:Hscan; simpl.
    + destruct (scan_branch_shape _ _ _ _ _ _ Hscan) as [i [-> | ->]].
      * exfalso. exact (scan_never_guard rest 0 first a i v Hgt Hscan).
      * destruct (scan_segment_brackets rest 0 first a i v Hgt Hscan)
          as (m & lower & upper & _ & Hlo & Hup & Hbr & -> & _).
        pose proof (Hnn m lower Hlo) as Hl0.
        pose proof (Hnn (S m) upper Hup) as Hu0.
        pose proof (segment_share_between (a - ProbePoint.amount_in lower)
                      (ProbePoint.amount_in upper - ProbePoint.amount_in lower)
                      (ProbePoint.amount_out upper - ProbePoint.amount_out lower)
                      ltac:(lia)) as Hb.
        split; [lia|].
        destruct (Z.le_gt_cases (ProbePoint.amount_out lower) (ProbePoint.amount_out upper)).
        -- exists (S m), upper. split; [exact Hup|lia].
        -- exists m, lower. split; [exact Hlo|lia].
    + destruct (last_out_lookup first rest) as (i & p & Hi & ->).
      split; [exact (Hnn i p Hi)|]. exists i, p. split; [exact Hi|lia].
Qed.

End RangeFacts.

(** X5. The [delta_in == 0] return of [_calc_quote] is dead code: no
    probe list and no amount make [_calc_quote], or [get_amount_out],
    return through it, because an iteration compares the query with
    [upper.amount_in] only after it was found above [lower.amount_in]. *)
Theorem zero_width_guard_is_dead :
  (forall (probes : list ProbePoint.t) (amount_in : Z) (i : nat) (out : Z),
     _calc_quote_br probes amount_in <> Return (SegmentGuard i, out))
  /\ (forall (d : DirectionBook.t) (amount_in block_number : Z) (i : nat)
            (r : QuoteResult.t),
        get_amount_out_br d amount_in block_number <> Return (SegmentGuard i, r)).
Proof.
  split.
  - intros probes a i out. apply calc_quote_never_segment_guard.
  - intros d a b i r. unfold get_amount_out_br.
    destruct ((a <=? 0) || py_not (DirectionBook.probes d)); [discriminate|].
    destruct (_calc_quote_br (DirectionBook.probes d) a) as [[br v]|e] eqn:Hcalc;
      simpl; [|discriminate].
    intros [= -> _]. exact (calc_quote_never_segment_guard _ _ _ _ Hcalc).
Qed.

(** X6. On a curve with strictly increasing [amount_in], every positive
    query above the last point's [amount_in] returns the last point's
    [amount_out]: beyond its last sample the curve is flat. *)
Theorem cap_beyond_last_on_sorted (d : DirectionBook.t) (amount_in block_number : Z)
    (last_point : ProbePoint.t) :
  strictly_increasing_in (DirectionBook.probes d) ->
  last (DirectionBook.probes d) = Some last_point ->
  ProbePoint.amount_in last_point < amount_in ->
  0 < amount_in ->
  quoted_out (get_amount_out d amount_in block_number)
  = Return (ProbePoint.amount_out last_point).
Proof.
  intros Hinc Hlast Hlt Hpos.
  assert (forall p, p ∈ DirectionBook.probes d -> ProbePoint.amount_in p < amount_in)
    as Hall.
  { intros p Hin. apply list_elem_of_lookup in Hin as [j Hj].
    rewrite last_lookup in Hlast.
    pose proof (lookup_lt_Some _ _ _ Hj) as Hlen.
    pose proof (increasing_below _ _ last_point Hinc Hlast j p ltac:(lia) Hj). lia. }
  destruct (DirectionBook.probes d) as [|first rest] eqn:Hp; [discriminate|].
  rewrite (get_amount_out_cons d first rest) by assumption.
  unfold quoted_out. simpl. f_equal.
  assert (ProbePoint.amount_in first < amount_in) as Hfirst by (apply Hall; left).
  unfold calc_quote_closed.
  destruct (Z.leb_spec amount_in (ProbePoint.amount_in first)); [lia|].
  rewrite scan_beyond by (intros p Hin; apply Hall; right; exact Hin).
  simpl. unfold last_out. rewrite last_cons in Hlast.
  destruct (last rest); injection Hlast as <-; reflexivity.
Qed.

Lemma cap_beyond_last_on_sorted_witness :
  quoted_out (get_amount_out (book_of "WETH" "USDC" [(100, 200); (300, 500)]) 301 12)
  = Return 500.
Proof.
  apply (cap_beyond_last_on_sorted (book_of "WETH" "USDC" [(100, 200); (300, 500)])
           301 12 (ProbePoint.mk 300 500) (proj1 sample_curve_invariant) eq_refl).
  - simpl. lia.
  - lia.
Defined.

(** X7. On any curve whose [amount_out] are all non-negative, in
    whatever order the points come, the engine's output is never
    negative and never above the largest sampled [amount_out]: it is 0 or
    at most the [amount_out] of some probe point. *)
Theorem output_within_sample_range (d : DirectionBook.t) (amount_in block_number : Z) :
  nonnegative_out (DirectionBook.probes d) ->
  exists out : Z,
    quoted_out (get_amount_out d amount_in block_number) = Return out
    /\ 0 <= out
    /\ (out = 0
        \/ exists (i : nat) (p : ProbePoint.t),
             DirectionBook.probes d !! i = Some p /\ out <= ProbePoint.amount_out p).
Proof.
  intros Hnn.
  destruct (DirectionBook.probes d) as [|first rest] eqn:Hp.
  - exists 0. rewrite get_amount_out_early by (right; exact Hp).
    split; [reflexivity|]. split; [lia|left; reflexivity].
  - destruct (Z.le_gt_cases amount_in 0) as [Hle|Hgt].
    + exists 0. rewrite get_amount_out_early by (left; exact Hle).
      split; [reflexivity|]. split; [lia|left; reflexivity].
    + exists (calc_quote_closed first rest amount_in).2.
      rewrite (get_amount_out_cons d first rest) by assumption.
      destruct (closed_range first rest amount_in Hnn Hgt) as [H0 Hmax].
      split; [reflexivity|]. split; [exact H0|right; exact Hmax].
Qed.

Lemma output_within_sample_range_witness :
  exists out : Z,
    quoted_out (get_amount_out
                  (book_of "WETH" "USDC" [(100, 200); (300, 500); (200, 400)]) 250 12)
    = Return out
    /\ 0 <= out
    /\ (out = 0
        \/ exists (i : nat) (p : ProbePoint.t),
             DirectionBook.probes
               (book_of "WETH" "USDC" [(100, 200); (300, 500); (200, 400)]) !! i = Some p
             /\ out <= ProbePoint.amount_out p).
Proof.
  apply (output_within_sample_range
           (book_of "WETH" "USDC" [(100, 200); (300, 500); (200, 400)]) 250 12).
  intros [|[|[|i]]] p Hp; simpl in Hp; try discriminate; injection Hp as <-; simpl; lia.
Defined.

(* ================================================================== *)
(** * The decoder of the fetcher                                        *)
(* ================================================================== *)

Section PairwiseFacts.

Context {A B : Type}.

Lemma pairwise_of_lookup (R : A -> A -> Prop) (l : list A) :
  (forall (i j : nat) (x y : A),
     (i < j)%nat -> l !! i = Some x -> l !! j = Some y -> R x y) ->
  pairwise R l.
Proof.
  induction l as [|x l IH]; intros H; [exact I|]. split.
  - apply Forall_lookup. intros j y Hy.
    apply (H 0%nat (S j) x y); [lia|reflexivity|exact Hy].
  - apply IH. intros i j a b Hij Ha Hb.
    apply (H (S i) (S j) a b); [lia|exact Ha|exact Hb].
Qed.

Lemma lookup_of_pairwise (R : A -> A -> Prop) (l : list A) :
  pairwise R l ->
  forall (i j : nat) (x y : A),
    (i < j)%nat -> l !! i = Some x -> l !! j = Some y -> R x y.
Proof.
  induction l as [|a l IH]; intros Hp i j x y Hij Hx Hy; [discriminate|].
  destruct Hp as [Hall Hp]. destruct j as [|j]; [lia|]. simpl in Hy.
  destruct i as [|i]; simpl in Hx.
  - injection Hx as <-. exact (proj1 (Forall_lookup _ _) Hall j y Hy).
  - apply (IH Hp i j x y); [lia|exact Hx|exact Hy].
Qed.

(** Filtering keeps a relation that holds between the elements kept. *)
Lemma pairwise_filter_where (R : A -> A -> Prop) (P : A -> Prop)
    `{!forall x, Decision (P x)} (l : list A) :
  pairwise (fun x y => P x -> P y -> R x y) l -> pairwise R (filter P l).
Proof.
  induction l as [|x l IH]; intros Hp; [exact I|].
  destruct Hp as [Hall Hp]. rewrite filter_cons.
  destruct (decide (P x)) as [HPx|HPx]; [|exact (IH Hp)].
  split; [|exact (IH Hp)].
  apply Forall_forall. intros y Hy. apply list_elem_of_filter in Hy as [HPy Hy].
  exact (proj1 (Forall_forall _ _) Hall y Hy HPx HPy).
Qed.

Lemma pairwise_fmap (R : B -> B -> Prop) (f : A -> B) (l : list A) :
  pairwise (fun x y => R (f x) (f y)) l -> pairwise R (map f l).
Proof.
  induction l as [|x l IH]; intros Hp; [exact I|].
  destruct Hp as [Hall Hp]. split; [|exact (IH Hp)].
  apply Forall_forall. intros y Hy.
  apply list_elem_of_fmap in Hy as (z & -> & Hz).
  exact (proj1 (Forall_forall _ _) Hall z Hz).
Qed.

End PairwiseFacts.

(** A relation between the levels of positive [p[0]] holds between the
    decoded probes. *)
Lemma decode_levels_pairwise (R : Z * Z -> Z * Z -> Prop) (levels : list (Z * Z)) :
  (forall (i j : nat) (p q : Z * Z),
     (i < j)%nat -> levels !! i = Some p -> levels !! j = Some q ->
     0 < p.1 -> 0 < q.1 -> R p q) ->
  forall (i j : nat) (p q : ProbePoint.t),
    (i < j)%nat -> decode_levels levels !! i = Some p ->
    decode_levels levels !! j = Some q ->
    R (ProbePoint.amount_in p, ProbePoint.amount_out p)
      (ProbePoint.amount_in q, ProbePoint.amount_out q).
Proof.
  intros H.
  apply (lookup_of_pairwise
           (fun p q => R (ProbePoint.amount_in p, ProbePoint.amount_out p)
                         (ProbePoint.amount_in q, ProbePoint.amount_out q))).
  unfold decode_levels. apply pairwise_fmap. simpl.
  apply (pairwise_filter_where
           (fun p q : Z * Z => R (p.1, p.2) (q.1, q.2)) (fun p : Z * Z => 0 < p.1)).
  apply pairwise_of_lookup. intros i j [p1 p2] [q1 q2] Hij Hp Hq Hp0 Hq0.
  exact (H i j _ _ Hij Hp Hq Hp0 Hq0).
Qed.

Lemma decode_levels_elem_of (levels : list (Z * Z)) (p : ProbePoint.t) :
  p ∈ decode_levels levels
  <-> (ProbePoint.amount_in p, ProbePoint.amount_out p) ∈ levels
      /\ 0 < ProbePoint.amount_in p.
Proof.
  unfold decode_levels. rewrite list_elem_of_fmap. split.
  - intros ([x y] & -> & Hin). apply list_elem_of_filter in Hin as [Hpos Hin].
    simpl in *. split; assumption.
  - intros [Hin Hpos]. exists (ProbePoint.amount_in p, ProbePoint.amount_out p).
    split; [destruct p; reflexivity|].
    apply list_elem_of_filter. split; assumption.
Qed.

(** The [first.amount_in == 0] return is taken only on a first point
    whose [amount_in] is 0, with a query that is not positive. *)
Lemma calc_quote_origin_guard (probes : list ProbePoint.t) (a v : Z) :
  _calc_quote_br probes a = Return (OriginGuard, v) ->
  exists first, probes !! 0%nat = Some first
                /\ ProbePoint.amount_in first = 0 /\ a <= 0.
Proof.
  destruct probes as [|first rest]; [discriminate|].
  rewrite calc_quote_br_cons. unfold calc_quote_closed.
  destruct (Z.leb_spec a (ProbePoint.amount_in first)) as [Hle|Hgt].
  - destruct (Z.eqb_spec (ProbePoint.amount_in first) 0) as [Hz|Hz]; [|discriminate].
    intros _. exists first. repeat split; [exact Hz|lia].
  - destruct (scan 0 first rest a) as [[br w]|] eqn:Hs; [|discriminate].
    destruct (scan_branch_shape _ _ _ _ _ _ Hs) as [i [-> | ->]]; discriminate.
Qed.

(** X8. [_decode_pair] keeps, on each side, exactly the levels of the
    reply whose [p[0]] is positive: a decoded probe is a level of the
    reply with positive [amount_in], and every such level is decoded.  On
    a decoded probe list [_calc_quote] therefore never returns through
    [first.amount_in == 0], whatever amount it is called with. *)
Theorem decode_pair_keeps_positive_levels (entry : PairOrderbook.t) :
  (forall p : ProbePoint.t,
     p ∈ RawPairData.ask_probes (_decode_pair entry)
     <-> (ProbePoint.amount_in p, ProbePoint.amount_out p)
           ∈ PairOrderbook.askCumulativeLevels entry
         /\ 0 < ProbePoint.amount_in p)
  /\ (forall p : ProbePoint.t,
        p ∈ RawPairData.bid_probes (_decode_pair entry)
        <-> (ProbePoint.amount_in p, ProbePoint.amount_out p)
              ∈ PairOrderbook.bidCumulativeLevels entry
            /\ 0 < ProbePoint.amount_in p)
  /\ (forall (amount_in out : Z),
        _calc_quote_br (RawPairData.ask_probes (_decode_pair entry)) amount_in
        <> Return (OriginGuard, out)
        /\ _calc_quote_br (RawPairData.bid_probes (_decode_pair entry)) amount_in
           <> Return (OriginGuard, out)).
Proof.
  split; [|split].
  - intros p. apply decode_levels_elem_of.
  - intros p. apply decode_levels_elem_of.
  - intros a out. split; intros Hguard;
      destruct (calc_quote_origin_guard _ _ _ Hguard) as (first & Hfirst & Hzero & _);
      apply list_elem_of_lookup_2 in Hfirst;
      apply decode_levels_elem_of in Hfirst as [_ Hpos]; lia.
Qed.

(** X9. The filter of [_decode_pair] restores the order of a reply in
    which failed probes (entries with [p[0] <= 0]) stand among the
    levels: when the levels of positive [p[0]] are strictly increasing in
    [p[0]], the decoded probes are strictly increasing in [amount_in];
    when their [p[1]] are non-decreasing (non-negative), so are the
    decoded [amount_out]. *)
Theorem decode_levels_restores_order (levels : list (Z * Z)) :
  (increasing_where_positive levels -> strictly_increasing_in (decode_levels levels))
  /\ (nondecreasing_where_positive levels -> nondecreasing_out (decode_levels levels))
  /\ (nonnegative_where_positive levels -> nonnegative_out (decode_levels levels)).
Proof.
  split; [|split].
  - intros H i j p q Hij Hp Hq.
    exact (decode_levels_pairwise (fun p q => p.1 < q.1) levels H i j p q Hij Hp Hq).
  - intros H i j p q Hij Hp Hq.
    exact (decode_levels_pairwise (fun p q => p.2 <= q.2) levels H i j p q Hij Hp Hq).
  - intros H i p Hp. apply list_elem_of_lookup_2 in Hp.
    apply decode_levels_elem_of in Hp as [Hin Hpos].
    apply list_elem_of_lookup in Hin as [k Hk]. exact (H k _ Hk Hpos).
Qed.

(** On a curve that satisfies the invariant, a larger query never gets
    a smaller output, and no output is negative. *)
Lemma quotes_monotone_on_invariant (d : DirectionBook.t) (a1 a2 b : Z) :
  well_formed_curve (DirectionBook.probes d) -> a1 <= a2 ->
  exists out1 out2 : Z,
    quoted_out (get_amount_out d a1 b) = Return out1
    /\ quoted_out (get_amount_out d a2 b) = Return out2
    /\ 0 <= out1 <= out2.
Proof.
  intros Hwf Hle.
  destruct (DirectionBook.probes d) as [|first rest] eqn:Hp.
  - exists 0, 0. rewrite !get_amount_out_early by (right; exact Hp).
    split; [reflexivity|]. split; [reflexivity|lia].
  - destruct (Z.le_gt_cases a1 0) as [H1|H1]; destruct (Z.le_gt_cases a2 0) as [H2|H2];
      try lia.
    + exists 0, 0. rewrite !get_amount_out_early by (left; assumption).
      split; [reflexivity|]. split; [reflexivity|lia].
    + exists 0, (calc_quote_closed first rest a2).2.
      rewrite get_amount_out_early by (left; assumption).
      rewrite (get_amount_out_cons d first rest) by assumption.
      pose proof (closed_bounds first rest a2 Hwf H2) as Hb2.
      split; [reflexivity|]. split; [reflexivity|lia].
    + exists (calc_quote_closed first rest a1).2, (calc_quote_closed first rest a2).2.
      rewrite !(get_amount_out_cons d first rest) by assumption.
      pose proof (closed_bounds first rest a1 Hwf H1) as Hb1.
      pose proof (closed_mono first rest a1 a2 Hwf H1 Hle) as Hmono.
      split; [reflexivity|]. split; [reflexivity|lia].
Qed.

(** X10. Decoding composes with quoting: for a reply whose ask levels
    of positive [p[0]] are strictly increasing in [p[0]] and
    non-negative, non-decreasing in [p[1]], with failed probes anywhere
    among them, the ask book built from the decoded pair quotes
    monotonically: a larger [amount_in] never gets a smaller
    [amount_out], and no [amount_out] is negative. *)
Theorem decoded_asks_quote_monotonically (entry : PairOrderbook.t)
    (a1 a2 block_number : Z) :
  increasing_where_positive (PairOrderbook.askCumulativeLevels entry) ->
  nondecreasing_where_positive (PairOrderbook.askCumulativeLevels entry) ->
  nonnegative_where_positive (PairOrderbook.askCumulativeLevels entry) ->
  a1 <= a2 ->
  exists out1 out2 : Z,
    quoted_out (get_amount_out (asks_of (_decode_pair entry)) a1 block_number)
    = Return out1
    /\ quoted_out (get_amount_out (asks_of (_decode_pair entry)) a2 block_number)
       = Return out2
    /\ 0 <= out1 <= out2.
Proof.
  intros Hin Hout Hnn Hle.
  apply quotes_monotone_on_invariant; [|exact Hle].
  simpl. apply well_formed_indexed.
  - exact (decode_levels_pairwise (fun p q => p.1 < q.1) _ Hin).
  - exact (decode_levels_pairwise (fun p q => p.2 <= q.2) _ Hout).
  - intros i p Hp. apply list_elem_of_lookup_2 in Hp.
    apply decode_levels_elem_of in Hp as [Hmem Hpos].
    apply list_elem_of_lookup in Hmem as [k Hk]. exact (Hnn k _ Hk Hpos).
Qed.

(** The ask levels of [sample_entry], with their failed probe, satisfy
    the three conditions. *)
Lemma sample_entry_levels :
  increasing_where_positive (PairOrderbook.askCumulativeLevels sample_entry)
  /\ nondecreasing_where_positive (PairOrderbook.askCumulativeLevels sample_entry)
  /\ nonnegative_where_positive (PairOrderbook.askCumulativeLevels sample_entry).
Proof.
  split; [|split].
  - intros [|[|[|i]]] [|[|[|j]]] p q Hij Hp Hq Hp0 Hq0; simpl in *;
      try lia; try discriminate; injection Hp as <-; injection Hq as <-;
      simpl in *; lia.
  - intros [|[|[|i]]] [|[|[|j]]] p q Hij Hp Hq Hp0 Hq0; simpl in *;
      try lia; try discriminate; injection Hp as <-; injection Hq as <-;
      simpl in *; lia.
  - intros [|[|[|i]]] p Hp Hp0; simpl in *; try discriminate;
      injection Hp as <-; simpl in *; lia.
Defined.

Lemma decoded_asks_quote_monotonically_witness :
  exists out1 out2 : Z,
    quoted_out (get_amount_out (asks_of (_decode_pair sample_entry)) 150 12)
    = Return out1
    /\ quoted_out (get_amount_out (asks_of (_decode_pair sample_entry)) 299 12)
       = Return out2
    /\ 0 <= out1 <= out2.
Proof.
  apply (decoded_asks_quote_monotonically sample_entry 150 299 12
           (proj1 sample_entry_levels)
           (proj1 (proj2 sample_entry_levels))
           (proj2 (proj2 sample_entry_levels))).
  lia.
Defined.

(* ================================================================== *)
(** * What a refresh builds                                             *)
(* ================================================================== *)

Section BuildFacts.

Import ElfomoFiClient.

Implicit Types (raws : list RawPairData.t) (raw : RawPairData.t).
Implicit Types (result : FetchResult.t).

(** The locals [(new_dirs, new_pairs)] after the loop has run over
    [raws]. *)
Lemma build_snoc raws raw :
  fold_left build_pair (raws ++ [raw]) (∅, [])
  = build_pair (fold_left build_pair raws (∅, [])) raw.
Proof. rewrite fold_left_app. reflexivity. Qed.

Lemma build_pair_dirs acc raw :
  (build_pair acc raw).1
  = <[(TokenPair.base_token (RawPairData.pair raw),
       TokenPair.quote_token (RawPairData.pair raw)) := bids_of raw]>
      (<[(TokenPair.quote_token (RawPairData.pair raw),
          TokenPair.base_token (RawPairData.pair raw)) := asks_of raw]> acc.1).
Proof. reflexivity. Qed.

Lemma build_pair_pairs acc raw :
  (build_pair acc raw).2 = acc.2 ++ [TokenPair.key (RawPairData.pair raw)].
Proof. reflexivity. Qed.

Lemma build_pairs_list raws :
  (fold_left build_pair raws (∅, [])).2
  = map (fun raw => TokenPair.key (RawPairData.pair raw)) raws.
Proof.
  induction raws as [|raw raws IH] using rev_ind; [reflexivity|].
  rewrite build_snoc, build_pair_pairs, IH, map_app. reflexivity.
Qed.

(** Every book is stored under the key of its own tokens. *)
Lemma build_keys_consistent raws (k : string * string) (d : DirectionBook.t) :
  (fold_left build_pair raws (∅, [])).1 !! k = Some d ->
  k = (DirectionBook.from_token d, DirectionBook.to_token d).
Proof.
  induction raws as [|raw raws IH] using rev_ind.
  - simpl. rewrite lookup_empty. discriminate.
  - rewrite build_snoc, build_pair_dirs.
    intros H. apply lookup_insert_Some in H as [[<- <-] | [_ H]]; [reflexivity|].
    apply lookup_insert_Some in H as [[<- <-] | [_ H]]; [reflexivity|].
    exact (IH H).
Qed.

(** Both directions of every listed pair have a book. *)
Lemma build_both_directions raws (b q : string) :
  (b, q) ∈ (fold_left build_pair raws (∅, [])).2 ->
  is_Some ((fold_left build_pair raws (∅, [])).1 !! (b, q))
  /\ is_Some ((fold_left build_pair raws (∅, [])).1 !! (q, b)).
Proof.
  induction raws as [|raw raws IH] using rev_ind.
  - simpl. intros H. apply elem_of_nil in H. contradiction.
  - rewrite build_snoc, build_pair_pairs, build_pair_dirs.
    intros H. apply elem_of_app in H as [H | H].
    + destruct (IH H) as [Hbq Hqb].
      split; apply lookup_insert_is_Some'; right;
        apply lookup_insert_is_Some'; right; assumption.
    + apply list_elem_of_singleton in H. unfold TokenPair.key in H.
      injection H as -> ->. split.
      * apply lookup_insert_is_Some'. left. reflexivity.
      * apply lookup_insert_is_Some'. right.
        apply lookup_insert_is_Some'. left. reflexivity.
Qed.

Lemma direction_keys_snoc raws raw :
  direction_keys (raws ++ [raw])
  = direction_keys raws
    ++ [(TokenPair.quote_token (RawPairData.pair raw),
         TokenPair.base_token (RawPairData.pair raw));
        (TokenPair.base_token (RawPairData.pair raw),
         TokenPair.quote_token (RawPairData.pair raw))].
Proof.
  unfold direction_keys. rewrite flat_map_app. reflexivity.
Qed.

Lemma direction_keys_elem_of raws raw :
  raw ∈ raws ->
  (TokenPair.quote_token (RawPairData.pair raw),
   TokenPair.base_token (RawPairData.pair raw)) ∈ direction_keys raws
  /\ (TokenPair.base_token (RawPairData.pair raw),
      TokenPair.quote_token (RawPairData.pair raw)) ∈ direction_keys raws.
Proof.
  intros Hin. unfold direction_keys.
  split; apply list_elem_of_In, in_flat_map; exists raw;
    (split; [apply list_elem_of_In; exact Hin|]); simpl; auto.
Qed.

(** With no key stored twice, every pair keeps both of its books. *)
Lemma build_distinct_keys raws raw :
  NoDup (direction_keys raws) -> raw ∈ raws ->
  (fold_left build_pair raws (∅, [])).1
    !! (TokenPair.quote_token (RawPairData.pair raw),
        TokenPair.base_token (RawPairData.pair raw)) = Some (asks_of raw)
  /\ (fold_left build_pair raws (∅, [])).1
       !! (TokenPair.base_token (RawPairData.pair raw),
           TokenPair.quote_token (RawPairData.pair raw)) = Some (bids_of raw).
Proof.
  induction raws as [|x raws IH] using rev_ind; intros Hnd Hin.
  - apply elem_of_nil in Hin. contradiction.
  - rewrite direction_keys_snoc in Hnd.
    apply NoDup_app in Hnd as (Hnd & Hdisj & Hlast).
    apply NoDup_cons in Hlast as [Hne _].
    rewrite build_snoc, build_pair_dirs.
    apply elem_of_app in Hin as [Hin | Hin].
    + destruct (direction_keys_elem_of raws raw Hin) as [Hak Hbk].
      pose proof (Hdisj _ Hak) as Ha. pose proof (Hdisj _ Hbk) as Hb.
      destruct (IH Hnd Hin) as [IHa IHb].
      split.
      * rewrite !lookup_insert_ne; [exact IHa| |];
          intros Heq; apply Ha; rewrite <- Heq; [left|right; left].
      * rewrite !lookup_insert_ne; [exact IHb| |];
          intros Heq; apply Hb; rewrite <- Heq; [left|right; left].
    + apply list_elem_of_singleton in Hin as ->. split.
      * rewrite lookup_insert_ne; [apply lookup_insert_eq|].
        intros Heq. apply Hne. rewrite Heq. left.
      * apply lookup_insert_eq.
Qed.

End BuildFacts.

(* ================================================================== *)
(** * More on the client                                                *)
(* ================================================================== *)

Section RefreshFacts.

Import ElfomoFiClient.

Implicit Types (self : t) (result : FetchResult.t) (n : Z).

(** What a refresh whose fetch returned does to the client. *)
Lemma refresh_client self n result :
  (refresh self n (Return result)).1
  = if FetchResult.block_number result <=? _current_block self then self
    else snapshot_of result.
Proof.
  rewrite refresh_run.
  destruct (Z.leb_spec (FetchResult.block_number result) (_current_block self)).
  - rewrite run_after_fetch_stale by assumption. reflexivity.
  - rewrite run_after_fetch_fresh by assumption. reflexivity.
Qed.

Lemma refresh_all_snoc self (results : list FetchResult.t) result :
  refresh_all self (results ++ [result])
  = (refresh (refresh_all self results) (FetchResult.block_number result)
       (Return result)).1.
Proof. unfold refresh_all. rewrite fold_left_app. reflexivity. Qed.

Lemma refresh_all_app self (rs1 rs2 : list FetchResult.t) :
  refresh_all self (rs1 ++ rs2) = refresh_all (refresh_all self rs1) rs2.
Proof. apply fold_left_app. Qed.

Lemma refresh_all_below (results : list FetchResult.t) : forall self (bound : Z),
  _current_block self < bound ->
  Forall (fun r => FetchResult.block_number r < bound) results ->
  _current_block (refresh_all self results) < bound.
Proof.
  induction results as [|r results IH]; intros self bound Hcur Hall; [exact Hcur|].
  apply Forall_cons in Hall as [Hr Hall].
  change (refresh_all self (r :: results))
    with (refresh_all (refresh self (FetchResult.block_number r) (Return r)).1 results).
  apply IH; [|exact Hall]. rewrite refresh_client.
  destruct (FetchResult.block_number r <=? _current_block self); [exact Hcur|exact Hr].
Qed.

Lemma refresh_all_stale (results : list FetchResult.t) : forall self,
  Forall (fun r => FetchResult.block_number r <= _current_block self) results ->
  refresh_all self results = self.
Proof.
  induction results as [|r results IH]; intros self Hall; [reflexivity|].
  apply Forall_cons in Hall as [Hr Hall].
  change (refresh_all self (r :: results))
    with (refresh_all (refresh self (FetchResult.block_number r) (Return r)).1 results).
  rewrite refresh_client.
  destruct (Z.leb_spec (FetchResult.block_number r) (_current_block self)); [|lia].
  apply IH. exact Hall.
Qed.

(** After any run the client is as constructed, or is the snapshot of a
    result with a positive block number. *)
Lemma reachable_client evs :
  client (run_events started evs) = fresh
  \/ exists result,
       client (run_events started evs) = snapshot_of result
       /\ 0 < FetchResult.block_number result.
Proof.
  induction evs as [|ev evs IH] using rev_ind; [left; reflexivity|].
  rewrite run_events_app. simpl.
  destruct (step_client (run_events started evs) ev (started_tasks evs))
    as [-> | (i & result & _ & Hlt & ->)]; [exact IH|].
  right. exists result. split; [reflexivity|].
  destruct IH as [IH | (r & IH & Hpos)]; rewrite IH in Hlt; simpl in Hlt; lia.
Qed.

(** The books of a built mapping are the ask and bid books of the
    fetched pairs. *)
Lemma build_books_from_raws (raws : list RawPairData.t) (k : string * string)
    (d : DirectionBook.t) :
  (fold_left build_pair raws (∅, [])).1 !! k = Some d ->
  exists raw, raw ∈ raws /\ (d = asks_of raw \/ d = bids_of raw).
Proof.
  induction raws as [|raw raws IH] using rev_ind.
  - simpl. rewrite lookup_empty. discriminate.
  - rewrite build_snoc, build_pair_dirs. intros H.
    apply lookup_insert_Some in H as [[_ <-] | [_ H]].
    { exists raw. split; [apply elem_of_app; right; left|right; reflexivity]. }
    apply lookup_insert_Some in H as [[_ <-] | [_ H]].
    { exists raw. split; [apply elem_of_app; right; left|left; reflexivity]. }
    destruct (IH H) as (raw' & Hin & Hd).
    exists raw'. split; [apply elem_of_app; left; exact Hin|exact Hd].
Qed.

(** [quote] on tokens that normalise to the key [(f, t)]. *)
Lemma quote_lookup (to_checksum_address : string -> pyresult string) self
    (from_token to_token f t : string) (amount_in : Z) :
  to_checksum_address from_token = Return f ->
  to_checksum_address to_token = Return t ->
  quote to_checksum_address self from_token to_token amount_in
  = match _directions self !! (f, t) with
    | None => Return None
    | Some d => fmap (M:=pyresult) Some (get_amount_out d amount_in (_current_block self))
    end.
Proof.
  intros Hf Ht. unfold quote, _get_direction. rewrite Hf, Ht. reflexivity.
Qed.

(** The wrapper of the listener, run to the end of the task. *)
Lemma run_with_run_callback (c : coro unit) : forall outcomes self,
  run_with (_run_callback c) outcomes self
  = ((run_with c outcomes self).1,
     match (run_with c outcomes self).2 with
     | Some (Raise e) => Some (if is_Exception e then Return tt else Raise e)
     | other => other
     end).
Proof.
  induction c as [r|k IH|w k IH|k IH]; intros outcomes self; simpl.
  - destruct r as [v|e]; [reflexivity|]. destruct (is_Exception e); reflexivity.
  - apply IH.
  - apply IH.
  - destruct outcomes as [|o outcomes]; [reflexivity|]. apply IH.
Qed.

End RefreshFacts.

(** X11. After a refresh that publishes, [pairs] lists the fetched
    pairs as [(base_token, quote_token)], one entry per fetched pair, in
    the order of the fetch and with its duplicates. *)
Theorem published_pairs_in_fetch_order (self : ElfomoFiClient.t) (n : Z)
    (result : FetchResult.t) :
  ElfomoFiClient._current_block self < FetchResult.block_number result ->
  ElfomoFiClient.pairs (ElfomoFiClient.refresh self n (Return result)).1
  = map (fun raw => (TokenPair.base_token (RawPairData.pair raw),
                     TokenPair.quote_token (RawPairData.pair raw)))
        (FetchResult.pairs result).
Proof.
  intros Hfresh. rewrite refresh_client.
  destruct (Z.leb_spec (FetchResult.block_number result)
              (ElfomoFiClient._current_block self)); [lia|].
  unfold ElfomoFiClient.pairs, ElfomoFiClient.snapshot_of,
    ElfomoFiClient.build_new_state. simpl.
  apply build_pairs_list.
Qed.

Lemma published_pairs_in_fetch_order_witness :
  ElfomoFiClient.pairs
    (ElfomoFiClient.refresh ElfomoFiClient.fresh 10
       (Return (sample_two_pools 10 1700000000))).1
  = [("WETH", "USDC"); ("WETH", "DAI")].
Proof.
  apply (published_pairs_in_fetch_order ElfomoFiClient.fresh 10
           (sample_two_pools 10 1700000000)).
  simpl. lia.
Defined.

(** X12. After any run of the event loop, a result that [quote] returns
    names the normalised tokens that were asked for, the amount that was
    asked and the published block number: every book is stored under the
    key of its own tokens. *)
Theorem quote_names_the_tokens_asked
    (to_checksum_address : string -> pyresult string)
    (evs : list ElfomoFiClient.event)
    (from_token to_token f t : string) (amount_in : Z) (r : QuoteResult.t) :
  to_checksum_address from_token = Return f ->
  to_checksum_address to_token = Return t ->
  ElfomoFiClient.quote to_checksum_address
    (ElfomoFiClient.client (ElfomoFiClient.run_events ElfomoFiClient.started evs))
    from_token to_token amount_in = Return (Some r) ->
  QuoteResult.from_token r = f
  /\ QuoteResult.to_token r = t
  /\ QuoteResult.amount_in r = amount_in
  /\ QuoteResult.block_number r
     = ElfomoFiClient.current_block
         (ElfomoFiClient.client (ElfomoFiClient.run_events ElfomoFiClient.started evs)).
Proof.
  intros Hf Ht. unfold ElfomoFiClient.quote, ElfomoFiClient._get_direction.
  rewrite Hf, Ht. simpl.
  destruct (ElfomoFiClient._directions _ !! (f, t)) as [d|] eqn:Hd; [|discriminate].
  assert ((f, t) = (DirectionBook.from_token d, DirectionBook.to_token d)) as Hkey.
  { destruct (reachable_client evs) as [Hc | (result & Hc & _)]; rewrite Hc in Hd.
    - simpl in Hd. rewrite lookup_empty in Hd. discriminate.
    - exact (build_keys_consistent _ _ _ Hd). }
  injection Hkey as -> ->.
  destruct (get_amount_out_returns d amount_in
              (ElfomoFiClient._current_block
                 (ElfomoFiClient.client
                    (ElfomoFiClient.run_events ElfomoFiClient.started evs))))
    as [out ->].
  simpl. intros [= <-]. repeat split; reflexivity.
Qed.

Lemma quote_names_the_tokens_asked_witness :
  QuoteResult.from_token (QuoteResult.mk "USDC" "WETH" 50 100 11) = "USDC"%string
  /\ QuoteResult.to_token (QuoteResult.mk "USDC" "WETH" 50 100 11) = "WETH"%string
  /\ QuoteResult.amount_in (QuoteResult.mk "USDC" "WETH" 50 100 11) = 50
  /\ QuoteResult.block_number (QuoteResult.mk "USDC" "WETH" 50 100 11)
     = ElfomoFiClient.current_block
         (ElfomoFiClient.client
            (ElfomoFiClient.run_events ElfomoFiClient.started race_late_10)).
Proof.
  apply (quote_names_the_tokens_asked sample_checksum race_late_10
           "USDC" "WETH" "USDC" "WETH" 50 (QuoteResult.mk "USDC" "WETH" 50 100 11)
           eq_refl eq_refl).
  vm_compute. reflexivity.
Defined.

(** X13. After any run of the event loop, every pair that [pairs] lists
    can be quoted in both directions: for tokens that normalise to
    themselves, [quote(base, quote, _)] and [quote(quote, base, _)] both
    return a result, never [None]. *)
Theorem listed_pairs_quote_both_ways
    (to_checksum_address : string -> pyresult string)
    (evs : list ElfomoFiClient.event) (b q : string) (amount_in : Z) :
  (b, q) ∈ ElfomoFiClient.pairs
             (ElfomoFiClient.client (ElfomoFiClient.run_events ElfomoFiClient.started evs)) ->
  to_checksum_address b = Return b ->
  to_checksum_address q = Return q ->
  exists r1 r2 : QuoteResult.t,
    ElfomoFiClient.quote to_checksum_address
      (ElfomoFiClient.client (ElfomoFiClient.run_events ElfomoFiClient.started evs))
      b q amount_in = Return (Some r1)
    /\ ElfomoFiClient.quote to_checksum_address
         (ElfomoFiClient.client (ElfomoFiClient.run_events ElfomoFiClient.started evs))
         q b amount_in = Return (Some r2).
Proof.
  intros Hin Hb Hq.
  assert (is_Some (ElfomoFiClient._directions
                     (ElfomoFiClient.client
                        (ElfomoFiClient.run_events ElfomoFiClient.started evs)) !! (b, q))
          /\ is_Some (ElfomoFiClient._directions
                        (ElfomoFiClient.client
                           (ElfomoFiClient.run_events ElfomoFiClient.started evs)) !! (q, b)))
    as [[d1 Hd1] [d2 Hd2]].
  { destruct (reachable_client evs) as [Hc | (result & Hc & _)]; rewrite Hc in Hin |- *.
    - apply elem_of_nil in Hin. contradiction.
    - exact (build_both_directions _ b q Hin). }
  unfold ElfomoFiClient.quote, ElfomoFiClient._get_direction.
  rewrite Hb, Hq. simpl. rewrite Hd1, Hd2.
  destruct (get_amount_out_returns d1 amount_in
              (ElfomoFiClient._current_block
                 (ElfomoFiClient.client
                    (ElfomoFiClient.run_events ElfomoFiClient.started evs))))
    as [out1 ->].
  destruct (get_amount_out_returns d2 amount_in
              (ElfomoFiClient._current_block
                 (ElfomoFiClient.client
                    (ElfomoFiClient.run_events ElfomoFiClient.started evs))))
    as [out2 ->].
  eexists _, _. split; reflexivity.
Qed.

Lemma listed_pairs_quote_both_ways_witness :
  exists r1 r2 : QuoteResult.t,
    ElfomoFiClient.quote sample_checksum
      (ElfomoFiClient.client (ElfomoFiClient.run_events ElfomoFiClient.started race_late_10))
      "WETH" "USDC" 15 = Return (Some r1)
    /\ ElfomoFiClient.quote sample_checksum
         (ElfomoFiClient.client
            (ElfomoFiClient.run_events ElfomoFiClient.started race_late_10))
         "USDC" "WETH" 15 = Return (Some r2).
Proof.
  apply (listed_pairs_quote_both_ways sample_checksum race_late_10 "WETH" "USDC" 15).
  - vm_compute. left.
  - reflexivity.
  - reflexivity.
Defined.

(** X14. When a fetched result stores no direction key twice (no pair
    repeated or reversed, no pair of a token with itself), the published
    snapshot keeps both books of every fetched pair: [quote(base, quote, _)]
    interpolates over the pair's bid probes and [quote(quote, base, _)]
    over its ask probes, at the result's block number. *)
Theorem distinct_pairs_keep_both_books
    (to_checksum_address : string -> pyresult string)
    (result : FetchResult.t) (raw : RawPairData.t) (amount_in : Z) :
  let b := TokenPair.base_token (RawPairData.pair raw) in
  let q := TokenPair.quote_token (RawPairData.pair raw) in
  NoDup (direction_keys (FetchResult.pairs result)) ->
  raw ∈ FetchResult.pairs result ->
  (ElfomoFiClient._directions (ElfomoFiClient.snapshot_of result) !! (q, b)
   = Some (asks_of raw)
   /\ ElfomoFiClient._directions (ElfomoFiClient.snapshot_of result) !! (b, q)
      = Some (bids_of raw))
  /\ (to_checksum_address b = Return b ->
      to_checksum_address q = Return q ->
      ElfomoFiClient.quote to_checksum_address (ElfomoFiClient.snapshot_of result)
        b q amount_in
      = fmap (M:=pyresult) Some
          (get_amount_out (bids_of raw) amount_in (FetchResult.block_number result))
      /\ ElfomoFiClient.quote to_checksum_address (ElfomoFiClient.snapshot_of result)
           q b amount_in
         = fmap (M:=pyresult) Some
             (get_amount_out (asks_of raw) amount_in (FetchResult.block_number result))).
Proof.
  intros b q Hnd Hin.
  assert (ElfomoFiClient._directions (ElfomoFiClient.snapshot_of result) !! (q, b)
          = Some (asks_of raw)
          /\ ElfomoFiClient._directions (ElfomoFiClient.snapshot_of result) !! (b, q)
             = Some (bids_of raw)) as [Hasks Hbids]
    by exact (build_distinct_keys _ raw Hnd Hin).
  split; [split; assumption|].
  intros Hb Hq.
  rewrite (quote_lookup to_checksum_address _ b q b q amount_in Hb Hq), Hbids.
  rewrite (quote_lookup to_checksum_address _ q b q b amount_in Hq Hb), Hasks.
  split; reflexivity.
Qed.

Lemma distinct_pairs_keep_both_books_witness :
  let result := sample_two_pools 10 1700000000 in
  let raw := RawPairData.mk (TokenPair.mk "WETH" "DAI")
               (curve [(50, 70)]) (curve [(7, 3)]) 30 40 in
  ElfomoFiClient._directions (ElfomoFiClient.snapshot_of result) !! ("DAI"%string, "WETH"%string)
  = Some (asks_of raw)
  /\ ElfomoFiClient._directions (ElfomoFiClient.snapshot_of result)
       !! ("WETH"%string, "DAI"%string)
     = Some (bids_of raw).
Proof.
  apply (distinct_pairs_keep_both_books sample_checksum
           (sample_two_pools 10 1700000000)
           (RawPairData.mk (TokenPair.mk "WETH" "DAI")
              (curve [(50, 70)]) (curve [(7, 3)]) 30 40) 5).
  - refine (bool_decide_unpack (NoDup _) _). vm_compute. exact I.
  - simpl. right. left.
Defined.

(** X15. The stores of the loop overwrite: the books of the pair that
    is fetched last are the ones published under its keys, whatever
    earlier entries stored there; and for a pair of a token with itself
    both books share one key, so the bid book, stored second, replaces
    the ask book. *)
Theorem last_fetched_pair_wins (result : FetchResult.t)
    (earlier : list RawPairData.t) (raw : RawPairData.t) :
  let b := TokenPair.base_token (RawPairData.pair raw) in
  let q := TokenPair.quote_token (RawPairData.pair raw) in
  FetchResult.pairs result = earlier ++ [raw] ->
  ElfomoFiClient._directions (ElfomoFiClient.snapshot_of result) !! (b, q)
  = Some (bids_of raw)
  /\ (b <> q ->
      ElfomoFiClient._directions (ElfomoFiClient.snapshot_of result) !! (q, b)
      = Some (asks_of raw))
  /\ (b = q ->
      ElfomoFiClient._directions (ElfomoFiClient.snapshot_of result) !! (q, b)
      = Some (bids_of raw)).
Proof.
  intros b q Hpairs.
  unfold ElfomoFiClient.snapshot_of, ElfomoFiClient.build_new_state. simpl.
  rewrite Hpairs, build_snoc, build_pair_dirs. fold b q.
  split; [apply lookup_insert_eq|]. split.
  - intros Hne. rewrite lookup_insert_ne by congruence. apply lookup_insert_eq.
  - intros ->. apply lookup_insert_eq.
Qed.

Lemma last_fetched_pair_wins_witness :
  let raw := RawPairData.mk (TokenPair.mk "WETH" "USDC")
               (curve [(1, 2)]) (curve [(3, 4)]) 5 6 in
  let result :=
    FetchResult.mk (FetchResult.pairs (sample_result 10 1700000000) ++ [raw])
      10 1700000000 in
  ElfomoFiClient._directions (ElfomoFiClient.snapshot_of result)
    !! ("WETH"%string, "USDC"%string) = Some (bids_of raw)
  /\ ElfomoFiClient._directions (ElfomoFiClient.snapshot_of result)
       !! ("USDC"%string, "WETH"%string) = Some (asks_of raw).
Proof.
  destruct (last_fetched_pair_wins
              (FetchResult.mk
                 (FetchResult.pairs (sample_result 10 1700000000)
                  ++ [RawPairData.mk (TokenPair.mk "WETH" "USDC")
                        (curve [(1, 2)]) (curve [(3, 4)]) 5 6])
                 10 1700000000)
              (FetchResult.pairs (sample_result 10 1700000000))
              (RawPairData.mk (TokenPair.mk "WETH" "USDC")
                 (curve [(1, 2)]) (curve [(3, 4)]) 5 6)
              eq_refl) as (Hbids & Hasks & _).
  split; [exact Hbids|]. apply Hasks. simpl. discriminate.
Defined.

(** X16. After any run of the event loop, [_initialized] is set exactly
    when the published block number is positive, and a client that is not
    initialized is still as constructed.  A fetch result with a block
    number of 0 or below is never published, so it never sets the event
    that [start] waits for. *)
Theorem initialized_iff_block_positive (evs : list ElfomoFiClient.event) :
  let self := ElfomoFiClient.client (ElfomoFiClient.run_events ElfomoFiClient.started evs) in
  (ElfomoFiClient._initialized self = true <-> 0 < ElfomoFiClient._current_block self)
  /\ (ElfomoFiClient._initialized self = false -> self = ElfomoFiClient.fresh)
  /\ (forall (i : nat) (result : FetchResult.t),
        FetchResult.block_number result <= 0 ->
        ElfomoFiClient.client
          (ElfomoFiClient.run_events ElfomoFiClient.started
             (evs ++ [ElfomoFiClient.FetchCompletes i (Return result)]))
        = self).
Proof.
  simpl. destruct (reachable_client evs) as [Hc | (result & Hc & Hpos)].
  - split; [|split].
    + rewrite Hc. simpl. split; [discriminate|lia].
    + intros _. exact Hc.
    + intros i result Hle. rewrite run_events_app. simpl.
      destruct (step_client (ElfomoFiClient.run_events ElfomoFiClient.started evs)
                  (ElfomoFiClient.FetchCompletes i (Return result)) (started_tasks evs))
        as [Hsame | (i' & result' & Hev & Hlt & _)]; [exact Hsame|].
      injection Hev as _ <-. rewrite Hc in Hlt. simpl in Hlt. lia.
  - split; [|split].
    + rewrite Hc. simpl. split; [intros _; exact Hpos|reflexivity].
    + rewrite Hc. simpl. discriminate.
    + intros i result' Hle. rewrite run_events_app. simpl.
      destruct (step_client (ElfomoFiClient.run_events ElfomoFiClient.started evs)
                  (ElfomoFiClient.FetchCompletes i (Return result')) (started_tasks evs))
        as [Hsame | (i' & r' & Hev & Hlt & _)]; [exact Hsame|].
      injection Hev as _ <-. rewrite Hc in Hlt. simpl in Hlt. lia.
Qed.

(** X17. Among refreshes that run one after the other, the highest
    block number wins, and among results that carry it, the first: when a
    result is above the published block number, above every result before
    it and not below any result after it, the client ends as the snapshot
    of that result, whole. *)
Theorem highest_block_wins (self : ElfomoFiClient.t)
    (before after : list FetchResult.t) (result : FetchResult.t) :
  ElfomoFiClient._current_block self < FetchResult.block_number result ->
  Forall (fun r => FetchResult.block_number r < FetchResult.block_number result) before ->
  Forall (fun r => FetchResult.block_number r <= FetchResult.block_number result) after ->
  refresh_all self (before ++ result :: after) = ElfomoFiClient.snapshot_of result.
Proof.
  intros Hcur Hbefore Hafter.
  rewrite refresh_all_app.
  pose proof (refresh_all_below before self _ Hcur Hbefore) as Hbelow.
  change (refresh_all (refresh_all self before) (result :: after))
    with (refresh_all
            (ElfomoFiClient.refresh (refresh_all self before)
               (FetchResult.block_number result) (Return result)).1 after).
  rewrite refresh_client.
  destruct (Z.leb_spec (FetchResult.block_number result)
              (ElfomoFiClient._current_block (refresh_all self before))); [lia|].
  apply refresh_all_stale. exact Hafter.
Qed.

Lemma highest_block_wins_witness :
  refresh_all ElfomoFiClient.fresh
    [sample_result 10 1700000000; sample_two_pools 11 1700000012;
     sample_result 11 1700000013; sample_result 9 1699999988]
  = ElfomoFiClient.snapshot_of (sample_two_pools 11 1700000012).
Proof.
  apply (highest_block_wins ElfomoFiClient.fresh
           [sample_result 10 1700000000]
           [sample_result 11 1700000013; sample_result 9 1699999988]
           (sample_two_pools 11 1700000012)).
  - simpl. lia.
  - repeat constructor; simpl; lia.
  - repeat constructor; simpl; lia.
Defined.

(** X18. Two refreshes whose results carry different block numbers
    commute: the client ends the same in either order of completion.  A
    refresh with the result that was just applied changes nothing. *)
Theorem refreshes_commute :
  (forall (self : ElfomoFiClient.t) (n1 n2 : Z) (r1 r2 : FetchResult.t),
     FetchResult.block_number r1 <> FetchResult.block_number r2 ->
     (ElfomoFiClient.refresh (ElfomoFiClient.refresh self n1 (Return r1)).1
        n2 (Return r2)).1
     = (ElfomoFiClient.refresh (ElfomoFiClient.refresh self n2 (Return r2)).1
          n1 (Return r1)).1)
  /\ (forall (self : ElfomoFiClient.t) (n1 n2 : Z) (r : FetchResult.t),
        (ElfomoFiClient.refresh (ElfomoFiClient.refresh self n1 (Return r)).1
           n2 (Return r)).1
        = (ElfomoFiClient.refresh self n1 (Return r)).1).
Proof.
  split.
  - intros self n1 n2 r1 r2 Hne. rewrite !refresh_client.
    destruct (Z.leb_spec (FetchResult.block_number r1)
                (ElfomoFiClient._current_block self)) as [H1|H1];
      destruct (Z.leb_spec (FetchResult.block_number r2)
                  (ElfomoFiClient._current_block self)) as [H2|H2]; simpl.
    + destruct (Z.leb_spec (FetchResult.block_number r1)
                  (ElfomoFiClient._current_block self)); [reflexivity|lia].
    + destruct (Z.leb_spec (FetchResult.block_number r1)
                  (FetchResult.block_number r2)); [reflexivity|lia].
    + destruct (Z.leb_spec (FetchResult.block_number r2)
                  (FetchResult.block_number r1)); [|lia].
      destruct (Z.leb_spec (FetchResult.block_number r1)
                  (ElfomoFiClient._current_block self)); [lia|reflexivity].
    + destruct (Z.leb_spec (FetchResult.block_number r2)
                  (FetchResult.block_number r1));
        destruct (Z.leb_spec (FetchResult.block_number r1)
                    (FetchResult.block_number r2)); try reflexivity; lia.
  - intros self n1 n2 r. rewrite !refresh_client.
    destruct (Z.leb_spec (FetchResult.block_number r)
                (ElfomoFiClient._current_block self)) as [H1|H1]; simpl.
    + destruct (Z.leb_spec (FetchResult.block_number r)
                  (ElfomoFiClient._current_block self)); [reflexivity|lia].
    + destruct (Z.leb_spec (FetchResult.block_number r) (FetchResult.block_number r));
        [reflexivity|lia].
Qed.

Lemma refreshes_commute_witness :
  (ElfomoFiClient.refresh
     (ElfomoFiClient.refresh ElfomoFiClient.fresh 10
        (Return (sample_result 10 1700000000))).1
     11 (Return (sample_two_pools 11 1700000012))).1
  = (ElfomoFiClient.refresh
       (ElfomoFiClient.refresh ElfomoFiClient.fresh 11
          (Return (sample_two_pools 11 1700000012))).1
       10 (Return (sample_result 10 1700000000))).1.
Proof.
  apply (proj1 refreshes_commute ElfomoFiClient.fresh 10 11
           (sample_result 10 1700000000) (sample_two_pools 11 1700000012)).
  simpl. lia.
Defined.

(** X19. [BlockListener._run_callback] lets no [Exception] escape a
    task and changes nothing else: run to its end with any outcomes of
    the awaited fetches, the wrapped callback leaves the client exactly as
    the callback alone would, an [Exception] that the callback raises
    becomes a normal return, and only an exception outside [Exception]
    (a cancellation) is raised by the task. *)
Theorem run_callback_contains_exceptions (on_block : ElfomoFiClient.coro unit)
    (outcomes : list fetch_outcome) (self : ElfomoFiClient.t) :
  (run_with (ElfomoFiClient._run_callback on_block) outcomes self).1
  = (run_with on_block outcomes self).1
  /\ (forall e : PyExc,
        (run_with (ElfomoFiClient._run_callback on_block) outcomes self).2
        = Some (Raise e) ->
        is_Exception e = false
        /\ (run_with on_block outcomes self).2 = Some (Raise e))
  /\ (forall e : PyExc,
        (run_with on_block outcomes self).2 = Some (Raise e) ->
        is_Exception e = true ->
        (run_with (ElfomoFiClient._run_callback on_block) outcomes self).2
        = Some (Return tt))
  /\ (forall v : unit,
        (run_with on_block outcomes self).2 = Some (Return v) ->
        (run_with (ElfomoFiClient._run_callback on_block) outcomes self).2
        = Some (Return v)).
Proof.
  rewrite run_with_run_callback. simpl.
  split; [reflexivity|]. split; [|split].
  - intros e. destruct (run_with on_block outcomes self).2 as [[v|e']|];
      try discriminate.
    destruct (is_Exception e') eqn:He'; [discriminate|].
    intros [= <-]. split; [exact He'|reflexivity].
  - intros e -> ->. reflexivity.
  - intros v ->. reflexivity.
Qed.

(** X20. The constructor accepts chain 8453 only and raises
    [ValueError] for every other chain id.  The client it returns has no
    pairs, block number 0, and answers [None] to every quote whose tokens
    normalise. *)
Theorem constructor_accepts_supported_chain_only (chain_id : Z) :
  (chain_id <> 8453 -> ElfomoFiClient.__init__ chain_id = Raise ValueError)
  /\ (forall self : ElfomoFiClient.t,
        ElfomoFiClient.__init__ chain_id = Return self ->
        chain_id = 8453
        /\ ElfomoFiClient.pairs self = []
        /\ ElfomoFiClient.current_block self = 0
        /\ ElfomoFiClient.block_timestamp self = 0
        /\ (forall (to_checksum_address : string -> pyresult string)
                   (from_token to_token f t : string) (amount_in : Z),
              to_checksum_address from_token = Return f ->
              to_checksum_address to_token = Return t ->
              ElfomoFiClient.quote to_checksum_address self from_token to_token amount_in
              = Return None)).
Proof.
  unfold ElfomoFiClient.__init__, ElfomoFiClient.CHAINS. split.
  - intros Hne. rewrite lookup_singleton_ne by congruence. reflexivity.
  - intros self. destruct (decide (chain_id = 8453)) as [->|Hne].
    + rewrite lookup_singleton_eq. intros [= <-].
      repeat split; try reflexivity.
      intros tca from_token to_token f t amount_in Hf Ht.
      rewrite (quote_lookup tca _ from_token to_token f t amount_in Hf Ht).
      simpl. rewrite lookup_empty. reflexivity.
    + rewrite lookup_singleton_ne by congruence. discriminate.
Qed.

(** X21. A refresh fed by [fetch_all_orderbooks]: when the call to the
    helper raises, the client is left as it was; when the reply carries a
    block number that is not above the published one, likewise; and when
    it is above, the client publishes the reply's block number and
    timestamp, lists one pair per book of the reply in the reply's order,
    is initialized, and every probe of every published book has a
    positive [amount_in]. *)
Theorem refresh_through_fetcher (self : ElfomoFiClient.t) (n : Z) :
  (forall e : PyExc,
     (ElfomoFiClient.refresh self n (fetch_all_orderbooks (Raise e))).1 = self)
  /\ (forall (books : list PairOrderbook.t) (block_number block_timestamp : Z),
        block_number <= ElfomoFiClient._current_block self ->
        (ElfomoFiClient.refresh self n
           (fetch_all_orderbooks (Return (books, block_number, block_timestamp)))).1
        = self)
  /\ (forall (books : list PairOrderbook.t) (block_number block_timestamp : Z),
        ElfomoFiClient._current_block self < block_number ->
        let self' :=
          (ElfomoFiClient.refresh self n
             (fetch_all_orderbooks (Return (books, block_number, block_timestamp)))).1 in
        ElfomoFiClient.current_block self' = block_number
        /\ ElfomoFiClient.block_timestamp self' = block_timestamp
        /\ ElfomoFiClient._initialized self' = true
        /\ ElfomoFiClient.pairs self'
           = map (fun book => (PairOrderbook.base book, PairOrderbook.quote book)) books
        /\ (forall (k : string * string) (d : DirectionBook.t) (p : ProbePoint.t),
              ElfomoFiClient._directions self' !! k = Some d ->
              p ∈ DirectionBook.probes d -> 0 < ProbePoint.amount_in p)).
Proof.
  split; [|split].
  - intros e. change (fetch_all_orderbooks (Raise e)) with (@Raise FetchResult.t e).
    rewrite refresh_run, run_after_fetch_raise. reflexivity.
  - intros books bn ts Hstale. simpl fetch_all_orderbooks.
    change (Return (FetchResult.mk (map _decode_pair books) bn ts) : pyresult FetchResult.t)
      with (@Return FetchResult.t (FetchResult.mk (map _decode_pair books) bn ts)).
    rewrite refresh_client. simpl.
    destruct (Z.leb_spec bn (ElfomoFiClient._current_block self)); [reflexivity|lia].
  - intros books bn ts Hfresh. simpl fetch_all_orderbooks.
    change (Return (FetchResult.mk (map _decode_pair books) bn ts) : pyresult FetchResult.t)
      with (@Return FetchResult.t (FetchResult.mk (map _decode_pair books) bn ts)).
    rewrite refresh_client. simpl FetchResult.block_number.
    destruct (Z.leb_spec bn (ElfomoFiClient._current_block self)); [lia|].
    cbv zeta.
    split; [reflexivity|]. split; [reflexivity|]. split; [reflexivity|]. split.
    + unfold ElfomoFiClient.pairs, ElfomoFiClient.snapshot_of,
        ElfomoFiClient.build_new_state. simpl.
      rewrite build_pairs_list, map_map. reflexivity.
    + intros k d p Hd Hp.
      unfold ElfomoFiClient.snapshot_of, ElfomoFiClient.build_new_state in Hd.
      simpl in Hd.
      destruct (build_books_from_raws _ _ _ Hd) as (raw & Hraw & Hbook).
      apply list_elem_of_fmap in Hraw as (book & -> & _).
      destruct Hbook as [-> | ->]; simpl in Hp;
        apply decode_levels_elem_of in Hp as [_ Hpos]; exact Hpos.
Qed.

Lemma refresh_through_fetcher_witness :
  let self' :=
    (ElfomoFiClient.refresh ElfomoFiClient.fresh 10
       (fetch_all_orderbooks (Return ([sample_entry], 10, 1700000000)))).1 in
  ElfomoFiClient.current_block self' = 10
  /\ ElfomoFiClient.block_timestamp self' = 1700000000
  /\ ElfomoFiClient._initialized self' = true
  /\ ElfomoFiClient.pairs self'
     = map (fun book => (PairOrderbook.base book, PairOrderbook.quote book)) [sample_entry]
  /\ (forall (k : string * string) (d : DirectionBook.t) (p : ProbePoint.t),
        ElfomoFiClient._directions self' !! k = Some d ->
        p ∈ DirectionBook.probes d -> 0 < ProbePoint.amount_in p).
Proof.
  apply (proj2 (proj2 (refresh_through_fetcher ElfomoFiClient.fresh 10))
           [sample_entry] 10 1700000000).
  simpl. lia.
Defined.

Lemma constructor_accepts_supported_chain_only_witness :
  ElfomoFiClient.__init__ 1 = Raise ValueError
  /\ ElfomoFiClient.pairs ElfomoFiClient.fresh = [].
Proof.
  split.
  - apply (proj1 (constructor_accepts_supported_chain_only 1)). lia.
  - apply (proj2 (constructor_accepts_supported_chain_only 8453) ElfomoFiClient.fresh).
    reflexivity.
Defined.

Section LoopFacts.

Import ElfomoFiClient.

Lemma build_absent (raws : list RawPairData.t) (k : string * string) :
  k ∉ direction_keys raws -> (fold_left build_pair raws (∅, [])).1 !! k = None.
Proof.
  induction raws as [|raw raws IH] using rev_ind; intros Hk.
  - apply lookup_empty.
  - rewrite direction_keys_snoc in Hk. rewrite build_snoc, build_pair_dirs.
    rewrite !lookup_insert_ne.
    + apply IH. intros Hin. apply Hk, elem_of_app. left. exact Hin.
    + intros <-. apply Hk, elem_of_app. right. left.
    + intros <-. apply Hk, elem_of_app. right. right. left.
Qed.

(** Every accepted result is at or below the published block number,
    and the client is the one the run started with or the snapshot of an
    accepted result. *)
Lemma accepted_bounded evs : forall st,
  Forall is_refresh_task (tasks st) ->
  (forall r, r ∈ accepted st evs ->
             FetchResult.block_number r <= _current_block (client (run_events st evs)))
  /\ (client (run_events st evs) = client st
      \/ exists r, r ∈ accepted st evs
                   /\ client (run_events st evs) = snapshot_of r
                   /\ _current_block (client st) < FetchResult.block_number r).
Proof.
  induction evs as [|ev evs IH]; intros st Hinv.
  - split; [intros r Hr; apply elem_of_nil in Hr; contradiction|left; reflexivity].
  - pose proof (step_tasks st ev Hinv) as Hinv'.
    destruct (IH (step st ev) Hinv') as [IHle IHcl].
    pose proof (run_events_block_monotone evs (step st ev) Hinv') as Hmono.
    pose proof (step_block_monotone st ev Hinv) as Hstep.
    cbn [accepted]. change (run_events st (ev :: evs)) with (run_events (step st ev) evs).
    split.
    + intros r Hr. apply elem_of_app in Hr as [Hr | Hr]; [|exact (IHle r Hr)].
      destruct ev as [n|i [result|e]|]; try (apply elem_of_nil in Hr; contradiction).
      destruct (tasks st !! i) as [k|] eqn:Hi;
        [|apply elem_of_nil in Hr; contradiction].
      apply list_elem_of_singleton in Hr as ->.
      pose proof (proj1 (Forall_lookup _ _) Hinv i k Hi) as [n Hk].
      assert (FetchResult.block_number result
              <= _current_block (client (step st (FetchCompletes i (Return result)))))
        as Hnow.
      { rewrite (step_fetch_completes st i (Return result) k n Hi Hk). cbn [client].
        destruct (Z.leb_spec (FetchResult.block_number result)
                    (_current_block (client st))); [assumption|].
        unfold snapshot_of. cbn [_current_block]. lia. }
      lia.
    + destruct IHcl as [IHcl | (r & Hr & Hsnap & Hlt)].
      * rewrite IHcl.
        destruct (step_client st ev Hinv) as [Hsame | (i & result & -> & Hlt & Hsnap)];
          [left; exact Hsame|].
        right. exists result. split; [|split; assumption].
        apply elem_of_app. left.
        destruct (tasks st !! i) as [k|] eqn:Hi; [left|].
        simpl in Hsnap. rewrite Hi in Hsnap. rewrite Hsnap in Hlt. simpl in Hlt. lia.
      * right. exists r. split; [apply elem_of_app; right; exact Hr|].
        split; [exact Hsnap|lia].
Qed.

End LoopFacts.

(** X22. A publish replaces the mapping wholesale: after a refresh that
    publishes, a direction that the new result does not carry quotes
    [None], whether or not the client had a book for it before. *)
Theorem publish_replaces_wholesale
    (to_checksum_address : string -> pyresult string)
    (self : ElfomoFiClient.t) (n : Z) (result : FetchResult.t)
    (from_token to_token f t : string) (amount_in : Z) :
  ElfomoFiClient._current_block self < FetchResult.block_number result ->
  to_checksum_address from_token = Return f ->
  to_checksum_address to_token = Return t ->
  (f, t) ∉ direction_keys (FetchResult.pairs result) ->
  ElfomoFiClient.quote to_checksum_address
    (ElfomoFiClient.refresh self n (Return result)).1 from_token to_token amount_in
  = Return None.
Proof.
  intros Hfresh Hf Ht Habsent. rewrite refresh_client.
  destruct (Z.leb_spec (FetchResult.block_number result)
              (ElfomoFiClient._current_block self)); [lia|].
  rewrite (quote_lookup to_checksum_address _ from_token to_token f t amount_in Hf Ht).
  assert (ElfomoFiClient._directions (ElfomoFiClient.snapshot_of result) !! (f, t) = None)
    as -> by exact (build_absent _ _ Habsent).
  reflexivity.
Qed.

Lemma publish_replaces_wholesale_witness :
  ElfomoFiClient.quote sample_checksum
    (ElfomoFiClient.snapshot_of (sample_two_pools 10 1700000000)) "WETH" "DAI" 5
  = Return (Some (QuoteResult.mk "WETH" "DAI" 5 2 10))
  /\ ElfomoFiClient.quote sample_checksum
       (ElfomoFiClient.refresh
          (ElfomoFiClient.snapshot_of (sample_two_pools 10 1700000000)) 11
          (Return (sample_result 11 1700000012))).1 "WETH" "DAI" 5
     = Return None.
Proof.
  split; [reflexivity|].
  apply (publish_replaces_wholesale sample_checksum
           (ElfomoFiClient.snapshot_of (sample_two_pools 10 1700000000)) 11
           (sample_result 11 1700000012) "WETH" "DAI" "WETH" "DAI" 5).
  - simpl. lia.
  - reflexivity.
  - reflexivity.
  - refine (bool_decide_unpack (_ ∉ _) _). vm_compute. exact I.
Defined.

(** X23. Over any run of the event loop, with fetches completing in
    any order, the published block number is the highest that a waiting
    refresh was handed: no accepted result has a block number above the
    published one, and the client is as constructed or is, whole, the
    snapshot of an accepted result. *)
Theorem published_block_is_highest_accepted (evs : list ElfomoFiClient.event) :
  let self := ElfomoFiClient.client (ElfomoFiClient.run_events ElfomoFiClient.started evs) in
  (forall r : FetchResult.t,
     r ∈ accepted ElfomoFiClient.started evs ->
     FetchResult.block_number r <= ElfomoFiClient.current_block self)
  /\ (self = ElfomoFiClient.fresh
      \/ exists r : FetchResult.t,
           r ∈ accepted ElfomoFiClient.started evs
           /\ self = ElfomoFiClient.snapshot_of r).
Proof.
  simpl.
  destruct (accepted_bounded evs ElfomoFiClient.started ltac:(constructor))
    as [Hle Hcl].
  split; [exact Hle|].
  destruct Hcl as [Hsame | (r & Hr & Hsnap & _)]; [left; exact Hsame|].
  right. exists r. split; assumption.
Qed.

Lemma decode_levels_restores_order_witness :
  strictly_increasing_in (decode_levels [(100, 200); (0, 0); (300, 500)])
  /\ nondecreasing_out (decode_levels [(100, 200); (0, 0); (300, 500)])
  /\ nonnegative_out (decode_levels [(100, 200); (0, 0); (300, 500)]).
Proof.
  destruct (decode_levels_restores_order [(100, 200); (0, 0); (300, 500)])
    as (Hin & Hout & Hnn).
  split; [|split].
  - apply Hin. exact (proj1 sample_entry_levels).
  - apply Hout. exact (proj1 (proj2 sample_entry_levels)).
  - apply Hnn. exact (proj2 (proj2 sample_entry_levels)).
Defined.

(* ================================================================== *)
(** * The cap on the curves of the data model                           *)
(* ================================================================== *)

(** C5. On every non-empty curve of the data model, whose [amount_in]
    are non-negative and strictly increasing, every [amount_in] strictly
    greater than the last probe point's [amount_in] returns exactly the
    last probe point's [amount_out], through [get_amount_out] and through
    [_calc_quote]: beyond its last sample the curve is capped, not
    extrapolated. *)
Theorem cap_beyond_last_point (d : DirectionBook.t) (amount_in block_number : Z)
    (last_point : ProbePoint.t) :
  strictly_increasing_in (DirectionBook.probes d) ->
  nonnegative_in (DirectionBook.probes d) ->
  last (DirectionBook.probes d) = Some last_point ->
  ProbePoint.amount_in last_point < amount_in ->
  quoted_out (get_amount_out d amount_in block_number)
  = Return (ProbePoint.amount_out last_point)
  /\ _calc_quote (DirectionBook.probes d) amount_in
     = Return (ProbePoint.amount_out last_point).
Proof.
  intros Hinc Hnn Hlast Hlt.
  assert (DirectionBook.probes d !! pred (length (DirectionBook.probes d))
          = Some last_point) as Hidx by (rewrite <- last_lookup; exact Hlast).
  assert (0 < amount_in) as Hpos by (pose proof (Hnn _ _ Hidx); lia).
  assert (forall p, p ∈ DirectionBook.probes d -> ProbePoint.amount_in p < amount_in)
    as Hall.
  { intros p Hin. apply list_elem_of_lookup in Hin as [j Hj].
    pose proof (lookup_lt_Some _ _ _ Hj) as Hlen.
    pose proof (increasing_below _ _ last_point Hinc Hidx j p ltac:(lia) Hj). lia. }
  destruct (cap_beyond_every_point d amount_in block_number last_point Hlast Hall)
    as [Hcalc Hget].
  split; [exact (Hget Hpos)|exact Hcalc].
Qed.

(** The curve [(100,200),(300,500)] has non-negative [amount_in]. *)
Lemma sample_curve_nonnegative_in : nonnegative_in (curve [(100, 200); (300, 500)]).
Proof.
  intros [|[|i]] p Hp; simpl in *; try discriminate; injection Hp as <-; simpl; lia.
Defined.

Lemma cap_beyond_last_point_witness :
  quoted_out (get_amount_out (book_of "WETH" "USDC" [(100, 200); (300, 500)]) 1000 12)
  = Return 500
  /\ _calc_quote (DirectionBook.probes (book_of "WETH" "USDC" [(100, 200); (300, 500)]))
       1000
     = Return 500.
Proof.
  apply (cap_beyond_last_point (book_of "WETH" "USDC" [(100, 200); (300, 500)]) 1000 12
           (ProbePoint.mk 300 500)
           (proj1 sample_curve_invariant) sample_curve_nonnegative_in eq_refl).
  simpl. lia.
Defined.

(* ================================================================== *)
(** * Readers outside the event loop                                    *)
(* ================================================================== *)

(** On one state the two loads of [quote] give [quote]. *)
Lemma quote_loads_same (to_checksum_address : string -> pyresult string)
    (self : ElfomoFiClient.t) (from_token to_token : string) (amount_in : Z) :
  quote_loads to_checksum_address self self from_token to_token amount_in
  = ElfomoFiClient.quote to_checksum_address self from_token to_token amount_in.
Proof.
  unfold quote_loads, ElfomoFiClient.quote, ElfomoFiClient._get_direction.
  destruct (to_checksum_address from_token) as [f|e]; [|reflexivity].
  destruct (to_checksum_address to_token) as [t|e]; reflexivity.
Qed.

(** C8, as the claim states it, fails for a reader that is not on the
    event loop.  The client holds block 10's snapshot and a refresh
    publishes block 11's, whose ask curve differs.  After the store of
    [_directions] and before the store of [_current_block] the client is
    no snapshot at all, and a reader thread that runs [quote] there gets
    block 11's amount stamped with block 10; a reader that loaded
    [_directions] before the publish and [_current_block] after it gets
    block 10's amount stamped with block 11.  Neither is what [quote]
    answers on block 10's snapshot or on block 11's. *)
Lemma thread_reader_sees_torn_snapshot :
  let old := ElfomoFiClient.snapshot_of (sample_result 10 1700000000) in
  let new := ElfomoFiClient.snapshot_of (sample_moved 11 1700000012) in
  exists mid : ElfomoFiClient.t,
    mid ∈ states_during_publish old 11 (sample_moved 11 1700000012)
    /\ ~ ElfomoFiClient.whole_snapshot
           [sample_result 10 1700000000; sample_moved 11 1700000012] mid
    /\ ElfomoFiClient.quote sample_checksum old "USDC" "WETH" 50
       = Return (Some (QuoteResult.mk "USDC" "WETH" 50 100 10))
    /\ ElfomoFiClient.quote sample_checksum new "USDC" "WETH" 50
       = Return (Some (QuoteResult.mk "USDC" "WETH" 50 75 11))
    /\ ElfomoFiClient.quote sample_checksum mid "USDC" "WETH" 50
       = Return (Some (QuoteResult.mk "USDC" "WETH" 50 75 10))
    /\ quote_loads sample_checksum old new "USDC" "WETH" 50
       = Return (Some (QuoteResult.mk "USDC" "WETH" 50 100 11)).
Proof.
  simpl.
  exists (ElfomoFiClient.exec_store
            (ElfomoFiClient.Store_directions
               (ElfomoFiClient.build_new_state (sample_moved 11 1700000012)).1)
            (ElfomoFiClient.snapshot_of (sample_result 10 1700000000))).
  split; [right; left|]. split; [|repeat split; reflexivity].
  intros [Hfresh | (r & Hin & Hsnap)].
  - apply (f_equal ElfomoFiClient._current_block) in Hfresh. discriminate Hfresh.
  - apply elem_of_cons in Hin as [-> | Hin].
    + apply (f_equal (fun s => ElfomoFiClient._directions s
                                 !! ("USDC"%string, "WETH"%string))) in Hsnap.
      vm_compute in Hsnap. discriminate Hsnap.
    + apply list_elem_of_singleton in Hin as ->.
      apply (f_equal ElfomoFiClient._current_block) in Hsnap. discriminate Hsnap.
Qed.
